(** * EasySpring: a shallow embedding of [src/EasySpring.ts]
    (and of the loop of the older copy, [src/unnamed/part_000])

    The program animates scalar values with a damped spring.  One global
    object, [EasySpring], holds the registry of springs and the state of
    the shared frame loop; [EasySpring.controller(option)] builds one
    spring and returns its controller.

    Conventions of the embedding.
    - A JavaScript [number] is an IEEE-754 binary64 value: Rocq's primitive
      [float], whose operations are the machine's.
    - A field of a configuration object holds a number or [undefined]
      (an object spread copies an own property that holds [undefined]);
      arithmetic and comparisons read [undefined] as NaN.
    - Objects that the program shares by reference live in stores: the
      closures created by [controller()] in [instances], the configuration
      objects in [configs].  A controller is the index of its closure.
    - [EasySpring.springs] is a JavaScript [Map]: an association list in
      insertion order, from the key to the closure it registers.
    - The platform's [requestAnimationFrame]/[cancelAnimationFrame] are
      modelled by the list of requests that are still pending.
    - The caller's callbacks ([onChange], [onStart], [onRest]) are
      observers: a call appends an event to [trace] and does not call back
      into the library. *)

From stdpp Require Import base list strings.
From Stdlib Require Import ZArith Floats Uint63 DecimalString DecimalPos DecimalN Lia.

Set Warnings "-inexact-float".

(** ** Numbers *)

Definition number : Type := float.

Module Math.

Definition abs (x : number) : number := PrimFloat.abs x.

(** [Math.round]: the integer nearest to [x], ties towards +infinity,
    computed exactly from the mantissa and exponent of [x]. *)
Definition round (x : number) : number :=
  match Prim2SF x with
  | S754_finite s m e =>
      if (0 <=? e)%Z then x
      else
        let num := if s then Z.neg m else Z.pos m in
        let z := ((2 * num + 2 ^ (- e)) / 2 ^ (1 - e))%Z in
        if (z =? 0)%Z then (if s then (-0)%float else 0%float)
        else if (z <? 0)%Z then (- of_uint63 (Uint63.of_Z (- z)))%float
        else of_uint63 (Uint63.of_Z z)
  | _ => x
  end.

End Math.

(** Number of passes of [for (let i = 1; i <= n; i++)]: the integers
    [1..floor n], none when [n] is NaN, a zero or negative.  The loop does
    not end for [n = +infinity]; [onFrame] never gets there, its lag guard
    returns first. *)
Definition iterations (n : number) : nat :=
  match Prim2SF n with
  | S754_finite false m e =>
      Z.to_nat (if (0 <=? e)%Z then Z.pos m * 2 ^ e else Z.pos m / 2 ^ (- e))%Z
  | _ => 0
  end.

(** ** Data *)

(** What a property of an object holds when it may hold [undefined]:
    [None] is [undefined]. *)
Definition orUndefined (A : Type) : Type := option A.

Definition undefined {A : Type} : orUndefined A := None.

(** [ToNumber], as arithmetic and comparisons apply it to an operand:
    [undefined] reads as NaN. *)
Definition toNumber (x : orUndefined number) : number := default nan x.

(** [interface SpringConfig]: every field is optional.  [None] is a
    property that the object does not have; [Some undefined] is an own
    property that holds [undefined], which the type of an optional
    field allows. *)
Record SpringConfig : Type := mkSpringConfig {
  cfg_mass : option (orUndefined number);
  cfg_tension : option (orUndefined number);
  cfg_friction : option (orUndefined number);
  cfg_precision : option (orUndefined number);
  cfg_velocity : option (orUndefined number);
  cfg_clamp : option (orUndefined bool)
}.

(** [Required<SpringConfig>]: an object that has every field.  By its
    type a field holds a number; an object spread copies an own property
    that holds [undefined], so a field of an object built by a spread
    holds a number or [undefined]. *)
Record RequiredConfig : Type := mkRequiredConfig {
  mass : orUndefined number;
  tension : orUndefined number;
  friction : orUndefined number;
  precision : orUndefined number;
  velocity : orUndefined number;
  clamp : orUndefined bool
}.

Inductive Callback : Type := OnChange | OnStart | OnRest.

(** [type SpringOption]; a callback field says whether the caller
    supplied that callback. *)
Record SpringOption : Type := mkSpringOption {
  opt_config : option SpringConfig;
  opt_value : option number;
  onChange : bool;
  onStart : bool;
  onRest : bool
}.

(** [SpringInfo.runtime]; [startConfig] is a reference into [configs]. *)
Record Runtime : Type := mkRuntime {
  goal : number;
  current : number;
  v : number;
  running : bool;
  startConfig : option nat
}.

(** [type SpringInfo]; [config] is a reference into [configs]. *)
Record SpringInfo : Type := mkSpringInfo {
  runtime : Runtime;
  config : nat
}.

(** What one call of [controller(option)] closes over: [id], [option]
    and [info]. *)
Record Instance : Type := mkInstance {
  id : string;
  option_ : SpringOption;
  info : SpringInfo
}.

(** One call of a callback, with the [current] its controller shows. *)
Record Event : Type := mkEvent {
  ev_spring : nat;
  ev_callback : Callback;
  ev_current : number
}.

(** The global object [EasySpring] with the stores and the platform. *)
Record State : Type := mkState {
  springs : list (string * nat);  (* EasySpring.springs *)
  raf : option positive;          (* EasySpring.info.raf *)
  lastT : number;                 (* EasySpring.info.lastT *)
  instances : list Instance;      (* closures of controller() *)
  configs : list RequiredConfig;  (* configuration objects *)
  pending : list positive;        (* frame requests not fired, not cancelled *)
  nextRequest : positive;         (* next handle of requestAnimationFrame *)
  trace : list Event              (* callbacks called so far *)
}.

Definition springDefaultConfig : RequiredConfig :=
  {| mass := Some 1%float; tension := Some 170%float; friction := Some 26%float;
     precision := Some 0.01%float; velocity := Some 0%float; clamp := Some false |}.

Definition frameResolution : number := (1000 / 60 / 100)%float.

Definition dummyInstance : Instance :=
  {| id := ""; option_ := mkSpringOption None None false false false;
     info := {| runtime := mkRuntime 0%float 0%float 0%float false None;
               config := 0 |} |}.

Definition initialState : State :=
  {| springs := []; raf := None; lastT := (-1)%float; instances := [];
     configs := []; pending := []; nextRequest := 1%positive; trace := [] |}.

(** ** Field updates *)

Definition set_springs (x : list (string * nat)) (s : State) : State :=
  mkState x (raf s) (lastT s) (instances s) (configs s) (pending s) (nextRequest s) (trace s).
Definition set_raf (x : option positive) (s : State) : State :=
  mkState (springs s) x (lastT s) (instances s) (configs s) (pending s) (nextRequest s) (trace s).
Definition set_lastT (x : number) (s : State) : State :=
  mkState (springs s) (raf s) x (instances s) (configs s) (pending s) (nextRequest s) (trace s).
Definition set_instances (x : list Instance) (s : State) : State :=
  mkState (springs s) (raf s) (lastT s) x (configs s) (pending s) (nextRequest s) (trace s).
Definition set_configs (x : list RequiredConfig) (s : State) : State :=
  mkState (springs s) (raf s) (lastT s) (instances s) x (pending s) (nextRequest s) (trace s).
Definition set_pending (x : list positive) (s : State) : State :=
  mkState (springs s) (raf s) (lastT s) (instances s) (configs s) x (nextRequest s) (trace s).
Definition set_nextRequest (x : positive) (s : State) : State :=
  mkState (springs s) (raf s) (lastT s) (instances s) (configs s) (pending s) x (trace s).
Definition set_trace (x : list Event) (s : State) : State :=
  mkState (springs s) (raf s) (lastT s) (instances s) (configs s) (pending s) (nextRequest s) x.

Definition set_runtime (rt : Runtime) (i : Instance) : Instance :=
  {| id := id i; option_ := option_ i;
     info := {| runtime := rt; config := config (info i) |} |}.

(** ** Stores *)

(** The closure behind controller [h]. *)
Definition inst (h : nat) (s : State) : Instance :=
  default dummyInstance (instances s !! h).

Definition rt_of (h : nat) (s : State) : Runtime := runtime (info (inst h s)).

(** [info.runtime.<field> = ...] on the closure of [h]. *)
Definition updRuntime (h : nat) (f : Runtime -> Runtime) (s : State) : State :=
  set_instances (alter (fun i => set_runtime (f (runtime (info i))) i) h (instances s)) s.

(** The configuration object at address [a]. *)
Definition cfgAt (a : nat) (s : State) : RequiredConfig :=
  default springDefaultConfig (configs s !! a).

(** A new configuration object; its address is returned. *)
Definition allocConfig (c : RequiredConfig) (s : State) : nat * State :=
  (length (configs s), set_configs (configs s ++ [c]) s).

(** The caller assigns to the fields of the object at address [a]. *)
Definition mutateConfig (a : nat) (f : RequiredConfig -> RequiredConfig) (s : State) : State :=
  set_configs (alter f a (configs s)) s.

(** Object spread [{ ...base, ...over }]: every own property of [over]
    is copied over the one of [base], also one that holds [undefined]. *)
Definition spread (base : RequiredConfig) (over : SpringConfig) : RequiredConfig :=
  {| mass := default (mass base) (cfg_mass over);
     tension := default (tension base) (cfg_tension over);
     friction := default (friction base) (cfg_friction over);
     precision := default (precision base) (cfg_precision over);
     velocity := default (velocity base) (cfg_velocity over);
     clamp := default (clamp base) (cfg_clamp over) |}.

(** A full configuration seen as a [SpringConfig]: every field present. *)
Definition asSpringConfig (c : RequiredConfig) : SpringConfig :=
  {| cfg_mass := Some (mass c); cfg_tension := Some (tension c);
     cfg_friction := Some (friction c); cfg_precision := Some (precision c);
     cfg_velocity := Some (velocity c); cfg_clamp := Some (clamp c) |}.

Definition emptyConfig : SpringConfig := mkSpringConfig None None None None None None.

(** ** The [Map] of springs *)

Definition mapSet (k : string) (h : nat) (m : list (string * nat)) : list (string * nat) :=
  if decide (k ∈ m.*1)
  then (fun e => if decide (e.1 = k) then (k, h) else e) <$> m
  else m ++ [(k, h)].

Definition mapDelete (k : string) (m : list (string * nat)) : list (string * nat) :=
  filter (fun e => e.1 ≠ k) m.

(** ** The platform *)

Definition requestAnimationFrame (s : State) : positive * State :=
  (nextRequest s,
   set_nextRequest (Pos.succ (nextRequest s)) (set_pending (pending s ++ [nextRequest s]) s)).

Definition cancelAnimationFrame (r : positive) (s : State) : State :=
  set_pending (filter (fun x => x ≠ r) (pending s)) s.

(** ** The frame loop *)

(** [option.onXxx?.(controller)]: the callback of spring [h] is called
    when the caller supplied it. *)
Definition fire (present : bool) (h : nat) (cb : Callback) (s : State) : State :=
  if present
  then set_trace (trace s ++ [mkEvent h cb (current (rt_of h s))]) s
  else s.

(** [stopAnimationFrame()] *)
Definition stopAnimationFrame (s : State) : State :=
  let s1 :=
    match raf s with
    | Some r => set_raf None (cancelAnimationFrame r s)
    | None => s
    end in
  set_lastT (-1)%float s1.

(** [checkIdle()] *)
Definition checkIdle (s : State) : State :=
  let hasRunning :=
    fold_left (fun acc e => acc || running (rt_of e.2 s)) (springs s) false in
  if hasRunning then s else stopAnimationFrame s.

(** The integration of one sub-step (lines 126-133 of [onFrame]). *)
Definition integrate (config : RequiredConfig) (deltaTH : number) (rt : Runtime) : Runtime :=
  let offset := (goal rt - current rt)%float in
  let f := (toNumber (tension config) * offset)%float in
  let a := ((f - toNumber (friction config) * v rt) / toNumber (mass config))%float in
  let deltaV := (a * deltaTH / 1000)%float in
  let v' := (v rt + deltaV)%float in
  let deltaD := (v' * deltaTH / 1000)%float in
  {| goal := goal rt; current := (current rt + deltaD)%float; v := v';
     running := true; startConfig := startConfig rt |}.

(** The two rest tests of a sub-step. *)
Definition exactRest (rt : Runtime) : bool :=
  ((goal rt - current rt =? 0) && (v rt =? 0))%float.

Definition nearRest (config : RequiredConfig) (rt : Runtime) : bool :=
  ((Math.abs (goal rt - current rt) <? toNumber (precision config))
   && (Math.abs (v rt) <? toNumber (precision config)))%float.

Definition setRunning (b : bool) (rt : Runtime) : Runtime :=
  {| goal := goal rt; current := current rt; v := v rt; running := b;
     startConfig := startConfig rt |}.

(** [info.runtime.v = 0; info.runtime.current = info.runtime.goal] *)
Definition snap (rt : Runtime) : Runtime :=
  {| goal := goal rt; current := goal rt; v := 0%float; running := running rt;
     startConfig := startConfig rt |}.

(** The [for] loop of the callback of [springs.forEach] in [onFrame],
    with [n] passes left, followed by the [onChange] after the loop.  A
    [return] inside the loop leaves the callback. *)
Fixpoint forLoop (n : nat) (deltaTH : number) (config : RequiredConfig)
    (opt : SpringOption) (h : nat) (s : State) : State :=
  match n with
  | O => fire (onChange opt) h OnChange s
  | S n' =>
      let rt := rt_of h s in
      if exactRest rt then
        if running rt
        then checkIdle (updRuntime h (setRunning false) (fire (onRest opt) h OnRest s))
        else s
      else if nearRest config rt then
        checkIdle
          (updRuntime h (setRunning false)
             (fire (onRest opt) h OnRest
                (fire (onChange opt) h OnChange (updRuntime h snap s))))
      else forLoop n' deltaTH config opt h (updRuntime h (integrate config deltaTH) s)
  end.

(** [info.runtime.startConfig ?? info.config] *)
Definition activeConfig (h : nat) (s : State) : RequiredConfig :=
  match startConfig (rt_of h s) with
  | Some a => cfgAt a s
  | None => cfgAt (config (info (inst h s))) s
  end.

(** The callback of [this.springs.forEach] in [onFrame]. *)
Definition processSpring (deltaT hPFrameFactor : number) (s : State) (e : string * nat) : State :=
  forLoop (iterations hPFrameFactor) (deltaT / hPFrameFactor)%float
    (activeConfig e.2 s) (option_ (inst e.2 s)) e.2 s.

(** [deltaT] of a frame at time [t], from [info.lastT]. *)
Definition frameDelta (t : number) (s : State) : number :=
  (t - (if (lastT s <? 0)%float then t else lastT s))%float.

(** [onFrame(t)] *)
Definition onFrame (t : number) (s : State) : State :=
  let '(r, s) := requestAnimationFrame s in
  let s := set_raf (Some r) s in
  let deltaT := frameDelta t s in
  let s := set_lastT t s in
  if (100 <? deltaT)%float then set_lastT (-1)%float s
  else
    let hPFrameFactor := Math.round (deltaT / frameResolution)%float in
    fold_left (processSpring deltaT hPFrameFactor) (springs s) s.

(** [startAnimationFrame()] *)
Definition startAnimationFrame (s : State) : State :=
  match raf s with
  | Some _ => s
  | None => let '(r, s) := requestAnimationFrame s in set_raf (Some r) s
  end.

(** The platform runs the callback of the oldest pending request; with
    nothing pending there is no frame. *)
Definition frame (t : number) (s : State) : State :=
  match pending s with
  | [] => s
  | _ :: rest => onFrame t (set_pending rest s)
  end.

(** ** [controller(option)] and the controller's methods *)

(** The key of a draw: [`${Math.floor(Math.random() * 1e15)}`]. *)
Definition keyOf (draw : N) : string := NilZero.string_of_uint (N.to_uint draw).

(** [generateId(existingKeys)]; [draws] are the integers that the
    successive calls of [Math.random] give.  [None]: every draw collided
    and the loop is still going. *)
Fixpoint generateId (existingKeys : list string) (draws : list N) : option string :=
  match draws with
  | [] => None
  | d :: rest =>
      if decide (keyOf d ∈ existingKeys) then generateId existingKeys rest
      else Some (keyOf d)
  end.

(** [controller(option)]: the controller and the new state. *)
Definition controller (opt : SpringOption) (draws : list N) (s : State)
    : option (nat * State) :=
  match generateId (springs s).*1 draws with
  | None => None
  | Some id0 =>
      let '(a, s) :=
        allocConfig (spread springDefaultConfig (default emptyConfig (opt_config opt))) s in
      let info0 :=
        {| runtime := {| goal := 0%float; current := default 0%float (opt_value opt);
                         v := 0%float; running := false; startConfig := None |};
           config := a |} in
      let h := length (instances s) in
      let s := set_instances (instances s ++ [mkInstance id0 opt info0]) s in
      Some (h, set_springs (mapSet id0 h (springs s)) s)
  end.

(** [get current()], [get goal()] *)
Definition get_current (h : nat) (s : State) : number := current (rt_of h s).
Definition get_goal (h : nat) (s : State) : number := goal (rt_of h s).

(** [get config()]: a new object with the fields of [info.config]. *)
Definition get_config (h : nat) (s : State) : nat * State :=
  allocConfig (spread (cfgAt (config (info (inst h s))) s) emptyConfig) s.

(** [start(value, config)].  [this.config] is the getter: it makes a
    copy of the base configuration.  The merged configuration has a
    [velocity] property, which holds [undefined] when the base
    configuration or [config] has it so; [?? 0] then gives 0. *)
Definition start (h : nat) (value : number) (config : option SpringConfig) (s : State) : State :=
  let s := updRuntime h (fun rt => mkRuntime value (current rt) (v rt) (running rt) (startConfig rt)) s in
  let s := updRuntime h (setRunning true) s in
  let '(c, s) := get_config h s in
  let '(a, s) :=
    allocConfig
      (spread (spread springDefaultConfig (asSpringConfig (cfgAt c s)))
         (default emptyConfig config)) s in
  let s := updRuntime h (fun rt => mkRuntime (goal rt) (current rt) (v rt) (running rt) (Some a)) s in
  let s := updRuntime h (fun rt => mkRuntime (goal rt) (current rt) (default 0%float (velocity (cfgAt a s))) (running rt) (startConfig rt)) s in
  let s := fire (onStart (option_ (inst h s))) h OnStart s in
  startAnimationFrame s.

(** [pause()] *)
Definition pause (h : nat) (s : State) : State := s.

(** [set(value)] *)
Definition set (h : nat) (value : number) (s : State) : State :=
  let hasChanged := negb (value =? current (rt_of h s))%float in
  let s := updRuntime h (fun rt => mkRuntime value value 0%float false (startConfig rt)) s in
  let s := if hasChanged then fire (onChange (option_ (inst h s))) h OnChange s else s in
  checkIdle s.

(** [remove()] *)
Definition remove (h : nat) (s : State) : State :=
  set_springs (mapDelete (id (inst h s)) (springs s)) s.

(** ** Runs *)

(** What the caller and the platform can do. *)
Inductive Op : Type :=
| Controller (opt : SpringOption) (draws : list N)
| Start (h : nat) (value : number) (config : option SpringConfig)
| Set_ (h : nat) (value : number)
| Pause (h : nat)
| Remove (h : nat)
| GetConfig (h : nat)
| Frame (t : number).

Definition step (s : State) (o : Op) : option State :=
  match o with
  | Controller opt draws => snd <$> controller opt draws s
  | Start h value config => Some (start h value config s)
  | Set_ h value => Some (set h value s)
  | Pause h => Some (pause h s)
  | Remove h => Some (remove h s)
  | GetConfig h => Some (snd (get_config h s))
  | Frame t => Some (frame t s)
  end.

Fixpoint run (ops : list Op) (s : State) : option State :=
  match ops with
  | [] => Some s
  | o :: rest => match step s o with Some s' => run rest s' | None => None end
  end.

Definition reachable (s : State) : Prop := exists ops, run ops initialState = Some s.

(** ** The sub-step loop as a function of one runtime

    [subSteps] follows one spring through the passes of the loop of
    [onFrame] and says how the loop was left. *)

Inductive Outcome : Type :=
| Moving                        (* the loop ran to its end *)
| RestedExact (wasRunning : bool) (* left by the exact rest test *)
| RestedNear.                   (* left by the precision test *)

Fixpoint subSteps (n : nat) (config : RequiredConfig) (deltaTH : number) (rt : Runtime)
    : Runtime * Outcome :=
  match n with
  | O => (rt, Moving)
  | S n' =>
      if exactRest rt then
        (if running rt then setRunning false rt else rt, RestedExact (running rt))
      else if nearRest config rt then (setRunning false (snap rt), RestedNear)
      else subSteps n' config deltaTH (integrate config deltaTH rt)
  end.

(** The callbacks that a spring's pass through the loop calls. *)
Definition callbacksOf (opt : SpringOption) (h : nat) (r : Runtime * Outcome) : list Event :=
  match r.2 with
  | Moving => if onChange opt then [mkEvent h OnChange (current r.1)] else []
  | RestedExact wasRunning =>
      if wasRunning && onRest opt then [mkEvent h OnRest (current r.1)] else []
  | RestedNear =>
      (if onChange opt then [mkEvent h OnChange (current r.1)] else [])
      ++ (if onRest opt then [mkEvent h OnRest (current r.1)] else [])
  end.

(** The quantities of one tick. *)
Definition tickFactor (t : number) (s : State) : number :=
  Math.round (frameDelta t s / frameResolution)%float.

Definition tickSteps (t : number) (s : State) : nat := iterations (tickFactor t s).

Definition tickDeltaTH (t : number) (s : State) : number :=
  (frameDelta t s / tickFactor t s)%float.

(** The events of spring [h] among [evs]. *)
Definition eventsOf (h : nat) (evs : list Event) : list Event :=
  filter (fun e => ev_spring e = h) evs.

(** ** Well-formed states *)

Record wf (s : State) : Prop := mkWf {
  wf_keys : NoDup (springs s).*1;
  wf_handles : NoDup (springs s).*2;
  wf_entries : forall k h, (k, h) ∈ springs s ->
    h < length (instances s) /\ id (inst h s) = k;
  wf_configs : forall h, h < length (instances s) ->
    config (info (inst h s)) < length (configs s) /\
    (forall a, startConfig (rt_of h s) = Some a -> a < length (configs s));
  wf_pending : pending s = match raf s with Some r => [r] | None => [] end
}.

(** ** The other copy of the loop ([src/unnamed/part_000])

    The repository holds a second, older copy of the file.  Its
    [onFrame] nests the loops the other way round, sub-steps outside and
    springs inside, uses [info.config] only, and calls [onChange] at the
    end of each sub-step of each spring. *)

Module Part000.

Definition frameResolution : number := (1000 / 60 / 30)%float.

(** The callback of [this.springs.forEach], one sub-step of one spring. *)
Definition subStep (deltaTH : number) (s : State) (e : string * nat) : State :=
  let h := e.2 in
  let opt := option_ (inst h s) in
  let cfg := cfgAt (config (info (inst h s))) s in
  let rt := rt_of h s in
  if exactRest rt then
    if running rt
    then checkIdle (updRuntime h (setRunning false) (fire (onRest opt) h OnRest s))
    else s
  else if nearRest cfg rt then
    checkIdle
      (updRuntime h (setRunning false)
         (fire (onRest opt) h OnRest
            (fire (onChange opt) h OnChange (updRuntime h snap s))))
  else fire (onChange opt) h OnChange (updRuntime h (integrate cfg deltaTH) s).

(** [for (let i = 1; i <= hPFrameFactor; i++)], [n] passes left. *)
Fixpoint forLoop (n : nat) (deltaTH : number) (s : State) : State :=
  match n with
  | O => s
  | S n' => forLoop n' deltaTH (fold_left (subStep deltaTH) (springs s) s)
  end.

Definition onFrame (t : number) (s : State) : State :=
  let '(r, s) := requestAnimationFrame s in
  let s := set_raf (Some r) s in
  let deltaT := frameDelta t s in
  let s := set_lastT t s in
  if (100 <? deltaT)%float then set_lastT (-1)%float s
  else
    let hPFrameFactor := Math.round (deltaT / frameResolution)%float in
    forLoop (iterations hPFrameFactor) (deltaT / hPFrameFactor)%float s.

End Part000.

(** ** Vocabulary of the statements *)

(** [s'] has the registry, the configuration objects and the closures
    of [s], the runtimes apart (but each runtime keeps its [startConfig]). *)
Record sameStatic (s s' : State) : Prop := mkSameStatic {
  ss_springs : springs s' = springs s;
  ss_configs : configs s' = configs s;
  ss_length : length (instances s') = length (instances s);
  ss_id : forall h, id (inst h s') = id (inst h s);
  ss_option : forall h, option_ (inst h s') = option_ (inst h s);
  ss_config : forall h, config (info (inst h s')) = config (info (inst h s));
  ss_startConfig : forall h, startConfig (rt_of h s') = startConfig (rt_of h s)
}.

(** Moreover only the runtime of [h] may differ. *)
Definition sameBut (h : nat) (s s' : State) : Prop :=
  sameStatic s s' /\ forall h', h' <> h -> rt_of h' s' = rt_of h' s.

(** The platform's list of requests agrees with [info.raf]. *)
Definition synced (s : State) : Prop :=
  pending s = match raf s with Some r => [r] | None => [] end.

(** The state of [onFrame] when it reaches the lag guard. *)
Definition tickStart (t : number) (s : State) : State :=
  set_lastT t (set_raf (Some (nextRequest s)) (requestAnimationFrame s).2).

(** While the loop is idle, [lastT] is -1. *)
Definition baselineUnset (s : State) : Prop := raf s = None -> lastT s = (-1)%float.

(** The call [o] is [start] or [set] on the controller [h]. *)
Definition callsOn (h : nat) (o : Op) : bool :=
  match o with
  | Start h' _ _ | Set_ h' _ => bool_decide (h' = h)
  | _ => false
  end.

(** The closure [h] exists and the registry does not hold it. *)
Definition detached (h : nat) (s : State) : Prop :=
  h < length (instances s) /\ h ∉ (springs s).*2.

(** The configuration object at address [a] exists and no spring
    refers to it. *)
Definition unreferenced (a : nat) (s : State) : Prop :=
  a < length (configs s) /\
  forall h, h < length (instances s) ->
    config (info (inst h s)) <> a /\ startConfig (rt_of h s) <> Some a.

(** The call [o] is a [start]. *)
Definition isStart (o : Op) : bool :=
  match o with
  | Start _ _ _ => true
  | _ => false
  end.

(** The frames at the times [ts], one after the other. *)
Definition frames (ts : list number) (s : State) : State :=
  fold_left (fun s t => frame t s) ts s.

(** ** Sample runs *)

Definition allCallbacks (value : option number) : SpringOption :=
  mkSpringOption None value true true true.

(** The state after the calls [ops], from the program's initial state. *)
Definition after (ops : list Op) : State := default initialState (run ops initialState).

(** One spring created at 5 and started towards 100; the first frame
    (the baseline) has been processed. *)
Definition movingState : State :=
  after [Controller (allCallbacks (Some 5%float)) [7%N];
         Start 0 100%float None; Frame 1000%float].

(** A spring at rest and not running, in a registry with no running
    spring, while the loop is active: a second spring was started and
    removed. *)
Definition idleLoopState : State :=
  after [Controller (allCallbacks None) [7%N]; Controller (allCallbacks None) [8%N];
         Start 1 1%float None; Remove 1; Frame 1000%float].

(** A spring within the precision of its goal, while running. *)
Definition nearRestState : State :=
  updRuntime 0 (fun rt => mkRuntime (goal rt) 99.995%float 0.001%float true (startConfig rt))
    movingState.

(** One spring is created, started and removed. *)
Definition orphanLoopState : State :=
  after [Controller (allCallbacks None) [7%N]; Start 0 1%float None; Remove 0].

(** A spring created at 5 and never started, and a second spring that
    was started: the state before the first frame. *)
Definition bystanderOps : list Op :=
  [Controller (allCallbacks (Some 5%float)) [7%N];
   Controller (allCallbacks None) [8%N];
   Start 1 100%float None].

Definition twoSprings : State :=
  after [Controller (allCallbacks (Some 5%float)) [7%N];
         Controller (allCallbacks None) [8%N]].

(** A spring started towards the value it has, then a spring created
    at 5 and never started; the first frame (the baseline) has been
    processed. *)
Definition strandingOps : list Op :=
  [Controller (allCallbacks None) [7%N];
   Controller (allCallbacks (Some 5%float)) [8%N];
   Start 0 0%float None; Frame 1000%float].

Definition strandingState : State := after strandingOps.

(** A spring whose base configuration has a [velocity] of 5, and the
    override [{ velocity: undefined }]. *)
Definition kickedSpring : State :=
  after [Controller
           (mkSpringOption
              (Some (mkSpringConfig None None None None (Some (Some 5%float)) None))
              None true true true)
           [7%N]].

Definition undefinedVelocity : SpringConfig :=
  mkSpringConfig None None None None (Some undefined) None.

(** * Lemmas *)

(** ** Numbers: two facts of binary64 arithmetic *)

Lemma number_sub_self (t : number) :
  is_finite t = true -> (t - t)%float = 0%float.
Proof.
  intros Hfin.
  apply Prim2SF_inj. rewrite FloatAxioms.sub_spec.
  unfold is_finite, is_nan, is_infinity in Hfin.
  rewrite FloatAxioms.eqb_spec in Hfin.
  rewrite (FloatAxioms.eqb_spec (PrimFloat.abs t)) in Hfin.
  rewrite FloatAxioms.abs_spec in Hfin.
  change (Prim2SF infinity) with (S754_infinity false) in Hfin.
  change (Prim2SF 0%float) with (S754_zero false).
  destruct (Prim2SF t) as [[]|[]| |sg m e]; try discriminate; try reflexivity.
  unfold SF64sub, SFsub.
  rewrite Z.sub_diag. reflexivity.
Qed.

Lemma number_eqb_refl (x : number) :
  is_nan x = false -> (x =? x)%float = true.
Proof. unfold is_nan. intros H. now apply negb_false_iff in H. Qed.

Lemma zero_steps : iterations (Math.round (0 / frameResolution)%float) = 0.
Proof. reflexivity. Qed.

(** ** The stores under the operations *)

Section Stores.

Implicit Types (s : State) (h : nat) (f : Runtime -> Runtime).

Lemma inst_lookup h s i : instances s !! h = Some i -> inst h s = i.
Proof. unfold inst. now intros ->. Qed.

Lemma valid_lookup h s : h < length (instances s) -> instances s !! h = Some (inst h s).
Proof.
  intros Hlt. destruct (lookup_lt_is_Some_2 _ _ Hlt) as [i Hi].
  now rewrite (inst_lookup _ _ _ Hi).
Qed.

Lemma updRuntime_length h f s :
  length (instances (updRuntime h f s)) = length (instances s).
Proof. unfold updRuntime. cbn. apply length_alter. Qed.

Lemma inst_updRuntime h f s :
  h < length (instances s) ->
  inst h (updRuntime h f s) = set_runtime (f (rt_of h s)) (inst h s).
Proof.
  intros Hlt. unfold inst at 1, updRuntime. cbn.
  rewrite list_lookup_alter_eq, (valid_lookup _ _ Hlt). reflexivity.
Qed.

Lemma inst_updRuntime_ne h h' f s :
  h' <> h -> inst h' (updRuntime h f s) = inst h' s.
Proof.
  intros Hne. unfold inst, updRuntime. cbn.
  now rewrite list_lookup_alter_ne by congruence.
Qed.

Lemma rt_of_updRuntime h f s :
  h < length (instances s) -> rt_of h (updRuntime h f s) = f (rt_of h s).
Proof. intros Hlt. unfold rt_of at 1. now rewrite inst_updRuntime. Qed.

Lemma rt_of_updRuntime_ne h h' f s :
  h' <> h -> rt_of h' (updRuntime h f s) = rt_of h' s.
Proof. intros Hne. unfold rt_of. now rewrite inst_updRuntime_ne. Qed.

Lemma cfgAt_alloc a c s :
  a < length (configs s) -> cfgAt a (allocConfig c s).2 = cfgAt a s.
Proof.
  intros Hlt. unfold cfgAt, allocConfig. cbn.
  now rewrite lookup_app_l.
Qed.

Lemma cfgAt_alloc_new c s : cfgAt (allocConfig c s).1 (allocConfig c s).2 = c.
Proof.
  unfold cfgAt, allocConfig. cbn.
  rewrite lookup_app_r by lia. now rewrite Nat.sub_diag.
Qed.

Lemma cfgAt_mutate_ne a b g s :
  a <> b -> cfgAt b (mutateConfig a g s) = cfgAt b s.
Proof.
  intros Hne. unfold cfgAt, mutateConfig. cbn.
  now rewrite list_lookup_alter_ne.
Qed.

Lemma spread_empty c : spread c emptyConfig = c.
Proof. now destruct c. Qed.

Lemma spread_full c d : spread c (asSpringConfig d) = d.
Proof. now destruct d. Qed.

End Stores.

Section SameBut.

Implicit Types (s : State) (h : nat).

Lemma sameStatic_refl s : sameStatic s s.
Proof. now constructor. Qed.

Lemma sameStatic_trans s1 s2 s3 : sameStatic s1 s2 -> sameStatic s2 s3 -> sameStatic s1 s3.
Proof.
  intros H1 H2. constructor; intros.
  - now rewrite (ss_springs _ _ H2), (ss_springs _ _ H1).
  - now rewrite (ss_configs _ _ H2), (ss_configs _ _ H1).
  - now rewrite (ss_length _ _ H2), (ss_length _ _ H1).
  - now rewrite (ss_id _ _ H2), (ss_id _ _ H1).
  - now rewrite (ss_option _ _ H2), (ss_option _ _ H1).
  - now rewrite (ss_config _ _ H2), (ss_config _ _ H1).
  - now rewrite (ss_startConfig _ _ H2), (ss_startConfig _ _ H1).
Qed.

Lemma sameBut_refl h s : sameBut h s s.
Proof. split; [apply sameStatic_refl | done]. Qed.

Lemma sameBut_trans h s1 s2 s3 : sameBut h s1 s2 -> sameBut h s2 s3 -> sameBut h s1 s3.
Proof.
  intros [H1 O1] [H2 O2]. split; [eapply sameStatic_trans; eauto |].
  intros h' Hne. now rewrite O2, O1.
Qed.

Lemma sameBut_instances h s s' :
  springs s' = springs s -> configs s' = configs s -> instances s' = instances s ->
  sameBut h s s'.
Proof.
  intros Hs Hc Hi.
  split; [constructor|]; auto; intros; unfold rt_of, inst; now rewrite Hi.
Qed.

Lemma sameBut_fire b h h' cb s : sameBut h s (fire b h' cb s).
Proof. apply sameBut_instances; unfold fire; now destruct b. Qed.

Lemma sameBut_stop h s : sameBut h s (stopAnimationFrame s).
Proof. apply sameBut_instances; unfold stopAnimationFrame; now destruct (raf s). Qed.

Lemma sameBut_checkIdle h s : sameBut h s (checkIdle s).
Proof.
  unfold checkIdle. destruct (fold_left _ _ _); [apply sameBut_refl | apply sameBut_stop].
Qed.

(** The closure of [h'] after an update of the runtime of [h]. *)
Lemma inst_updRuntime_cases h h' f s :
  inst h' (updRuntime h f s) = inst h' s \/
  (h' = h /\ inst h' (updRuntime h f s) = set_runtime (f (rt_of h s)) (inst h s)).
Proof.
  destruct (decide (h' = h)) as [->|Hne]; [|left; now apply inst_updRuntime_ne].
  destruct (decide (h < length (instances s))) as [Hlt|Hge].
  - right. split; [done | now apply inst_updRuntime].
  - left. unfold inst, updRuntime; cbn. rewrite list_lookup_alter_eq.
    now rewrite (lookup_ge_None_2 (instances s) h) by lia.
Qed.

Lemma sameBut_updRuntime h f s :
  (forall rt, startConfig (f rt) = startConfig rt) ->
  sameBut h s (updRuntime h f s).
Proof.
  intros Hf. split; [constructor|]; try reflexivity.
  - apply updRuntime_length.
  - intros h'. destruct (inst_updRuntime_cases h h' f s) as [->|[-> ->]]; done.
  - intros h'. destruct (inst_updRuntime_cases h h' f s) as [->|[-> ->]]; done.
  - intros h'. destruct (inst_updRuntime_cases h h' f s) as [->|[-> ->]]; done.
  - intros h'. unfold rt_of.
    destruct (inst_updRuntime_cases h h' f s) as [->|[-> ->]]; [done | apply Hf].
  - intros h' Hne. now apply rt_of_updRuntime_ne.
Qed.

End SameBut.

(** ** The loop of one spring *)

Section ForLoop.

Implicit Types (s : State) (h : nat) (opt : SpringOption) (config : RequiredConfig).

Lemma trace_fire b h cb s :
  trace (fire b h cb s) =
  trace s ++ (if b then [mkEvent h cb (current (rt_of h s))] else []).
Proof. unfold fire. destruct b; cbn; [done | now rewrite app_nil_r]. Qed.

Lemma trace_updRuntime h f s : trace (updRuntime h f s) = trace s.
Proof. reflexivity. Qed.

Lemma instances_fire b h cb s : instances (fire b h cb s) = instances s.
Proof. unfold fire. now destruct b. Qed.

Lemma rt_of_fire b h h' cb s : rt_of h' (fire b h cb s) = rt_of h' s.
Proof. unfold rt_of, inst. now rewrite instances_fire. Qed.

Lemma instances_stop s : instances (stopAnimationFrame s) = instances s.
Proof. unfold stopAnimationFrame. now destruct (raf s). Qed.

Lemma trace_stop s : trace (stopAnimationFrame s) = trace s.
Proof. unfold stopAnimationFrame. now destruct (raf s). Qed.

Lemma instances_checkIdle s : instances (checkIdle s) = instances s.
Proof. unfold checkIdle. destruct (fold_left _ _ _); [done | apply instances_stop]. Qed.

Lemma trace_checkIdle s : trace (checkIdle s) = trace s.
Proof. unfold checkIdle. destruct (fold_left _ _ _); [done | apply trace_stop]. Qed.

Lemma rt_of_checkIdle h s : rt_of h (checkIdle s) = rt_of h s.
Proof. unfold rt_of, inst. now rewrite instances_checkIdle. Qed.

Lemma synced_stop s : synced s -> synced (stopAnimationFrame s).
Proof.
  unfold synced, stopAnimationFrame. intros Hs.
  destruct (raf s) as [r|] eqn:Hr; cbn; rewrite ?Hr; [|done].
  rewrite Hs. cbn. now rewrite decide_False by (intros H; now apply H).
Qed.

Lemma synced_checkIdle s : synced s -> synced (checkIdle s).
Proof. unfold checkIdle. destruct (fold_left _ _ _); [done | apply synced_stop]. Qed.

Lemma synced_fire b h cb s : synced s -> synced (fire b h cb s).
Proof. unfold fire. now destruct b. Qed.

Lemma synced_updRuntime h f s : synced s -> synced (updRuntime h f s).
Proof. done. Qed.

Lemma forLoop_sameBut n deltaTH config opt h s :
  sameBut h s (forLoop n deltaTH config opt h s).
Proof.
  revert s. induction n as [|n IH]; intros s; simpl.
  - apply sameBut_fire.
  - destruct (exactRest (rt_of h s)).
    + destruct (running (rt_of h s)); [|apply sameBut_refl].
      eapply sameBut_trans; [|apply sameBut_checkIdle].
      eapply sameBut_trans; [apply sameBut_fire | now apply sameBut_updRuntime].
    + destruct (nearRest config (rt_of h s)).
      * eapply sameBut_trans; [|apply sameBut_checkIdle].
        eapply sameBut_trans; [|now apply sameBut_updRuntime].
        eapply sameBut_trans; [|apply sameBut_fire].
        eapply sameBut_trans; [|apply sameBut_fire].
        now apply sameBut_updRuntime.
      * eapply sameBut_trans; [|apply IH]. now apply sameBut_updRuntime.
Qed.

Lemma forLoop_synced n deltaTH config opt h s :
  synced s -> synced (forLoop n deltaTH config opt h s).
Proof.
  revert s. induction n as [|n IH]; intros s Hs; simpl.
  - now apply synced_fire.
  - destruct (exactRest (rt_of h s)).
    + destruct (running (rt_of h s)); [|done].
      now apply synced_checkIdle, synced_updRuntime, synced_fire.
    + destruct (nearRest config (rt_of h s)).
      * now apply synced_checkIdle, synced_updRuntime, synced_fire, synced_fire,
          synced_updRuntime.
      * now apply IH, synced_updRuntime.
Qed.

(** The runtime of the spring after its loop. *)
Lemma forLoop_runtime n deltaTH config opt h s :
  h < length (instances s) ->
  rt_of h (forLoop n deltaTH config opt h s) = (subSteps n config deltaTH (rt_of h s)).1.
Proof.
  revert s. induction n as [|n IH]; intros s Hlt; simpl.
  - apply rt_of_fire.
  - destruct (exactRest (rt_of h s)).
    + destruct (running (rt_of h s)); [|done].
      rewrite rt_of_checkIdle, rt_of_updRuntime, rt_of_fire; [done|].
      now rewrite instances_fire.
    + destruct (nearRest config (rt_of h s)).
      * rewrite rt_of_checkIdle, rt_of_updRuntime, !rt_of_fire, rt_of_updRuntime; [done..|].
        now rewrite !instances_fire, updRuntime_length.
      * rewrite IH by now rewrite updRuntime_length.
        now rewrite rt_of_updRuntime.
Qed.

(** The callbacks called by the loop of the spring. *)
Lemma forLoop_trace n deltaTH config opt h s :
  h < length (instances s) ->
  trace (forLoop n deltaTH config opt h s) =
  trace s ++ callbacksOf opt h (subSteps n config deltaTH (rt_of h s)).
Proof.
  revert s. induction n as [|n IH]; intros s Hlt; simpl.
  - apply trace_fire.
  - destruct (exactRest (rt_of h s)).
    + destruct (running (rt_of h s)) eqn:Hrun; unfold callbacksOf; cbn.
      * rewrite trace_checkIdle. cbn. now rewrite trace_fire.
      * now rewrite app_nil_r.
    + destruct (nearRest config (rt_of h s)); unfold callbacksOf; cbn.
      * rewrite trace_checkIdle. cbn. rewrite !trace_fire. cbn.
        rewrite rt_of_fire, rt_of_updRuntime by done. cbn.
        now rewrite <- app_assoc.
      * rewrite IH by now rewrite updRuntime_length.
        cbn. now rewrite rt_of_updRuntime.
Qed.

End ForLoop.

(** ** One tick *)

Section Tick.

Implicit Types (s : State) (h : nat) (l : list (string * nat)).

Lemma onFrame_unfold t s :
  onFrame t s =
  if (100 <? frameDelta t s)%float then set_lastT (-1)%float (tickStart t s)
  else fold_left (processSpring (frameDelta t s) (tickFactor t s)) (springs s) (tickStart t s).
Proof. reflexivity. Qed.

Lemma eventsOf_app h (evs1 evs2 : list Event) :
  eventsOf h (evs1 ++ evs2) = eventsOf h evs1 ++ eventsOf h evs2.
Proof. apply filter_app. Qed.

Lemma eventsOf_callbacksOf h opt r : eventsOf h (callbacksOf opt h r) = callbacksOf opt h r.
Proof.
  unfold eventsOf, callbacksOf.
  destruct r.2 as [|[]|], (onChange opt), (onRest opt); cbn;
    rewrite ?decide_True by done; reflexivity.
Qed.

Lemma eventsOf_fire_ne b h h' cb s :
  h' <> h -> eventsOf h' (trace (fire b h cb s)) = eventsOf h' (trace s).
Proof.
  intros Hne. rewrite trace_fire, eventsOf_app. destruct b; cbn.
  - unfold eventsOf at 2. cbn. rewrite decide_False by (cbn; congruence).
    now rewrite app_nil_r.
  - now rewrite app_nil_r.
Qed.

Lemma forLoop_events_ne n deltaTH config opt h h' s :
  h' <> h ->
  eventsOf h' (trace (forLoop n deltaTH config opt h s)) = eventsOf h' (trace s).
Proof.
  intros Hne. revert s. induction n as [|n IH]; intros s; simpl.
  - now apply eventsOf_fire_ne.
  - destruct (exactRest (rt_of h s)).
    + destruct (running (rt_of h s)); [|done].
      rewrite trace_checkIdle, trace_updRuntime. now apply eventsOf_fire_ne.
    + destruct (nearRest config (rt_of h s)).
      * rewrite trace_checkIdle, trace_updRuntime. now rewrite !eventsOf_fire_ne.
      * now rewrite IH.
Qed.

Lemma activeConfig_sameStatic h s s' :
  sameStatic s s' -> activeConfig h s' = activeConfig h s.
Proof.
  intros H. unfold activeConfig, cfgAt.
  now rewrite (ss_startConfig _ _ H), (ss_config _ _ H), (ss_configs _ _ H).
Qed.

Lemma processSpring_sameBut deltaT factor s e :
  sameBut e.2 s (processSpring deltaT factor s e).
Proof. apply forLoop_sameBut. Qed.

Lemma fold_sameStatic deltaT factor l s :
  sameStatic s (fold_left (processSpring deltaT factor) l s).
Proof.
  revert s. induction l as [|e l IH]; intros s; cbn; [apply sameStatic_refl|].
  eapply sameStatic_trans; [|apply IH]. apply processSpring_sameBut.
Qed.

Lemma fold_synced deltaT factor l s :
  synced s -> synced (fold_left (processSpring deltaT factor) l s).
Proof.
  revert s. induction l as [|e l IH]; intros s Hs; cbn; [done|].
  apply IH. now apply forLoop_synced.
Qed.

(** Springs that the loop does not visit keep their runtime, and none
    of their callbacks is called. *)
Lemma fold_others deltaT factor l s h :
  h ∉ l.*2 ->
  rt_of h (fold_left (processSpring deltaT factor) l s) = rt_of h s /\
  eventsOf h (trace (fold_left (processSpring deltaT factor) l s)) = eventsOf h (trace s).
Proof.
  revert s. induction l as [|e l IH]; intros s Hnot; cbn; [done|].
  cbn in Hnot. apply not_elem_of_cons in Hnot as [Hne Hnot].
  destruct (IH (processSpring deltaT factor s e) Hnot) as [-> ->].
  split.
  - now apply (processSpring_sameBut deltaT factor s e).
  - now apply forLoop_events_ne.
Qed.

(** What a tick that passes the lag guard does to a registered spring:
    its loop, and nothing else. *)
Lemma onFrame_spring t s k h :
  NoDup (springs s).*2 ->
  (k, h) ∈ springs s ->
  h < length (instances s) ->
  (100 <? frameDelta t s)%float = false ->
  let r := subSteps (tickSteps t s) (activeConfig h s) (tickDeltaTH t s) (rt_of h s) in
  rt_of h (onFrame t s) = r.1 /\
  eventsOf h (trace (onFrame t s)) =
  eventsOf h (trace s) ++ callbacksOf (option_ (inst h s)) h r.
Proof.
  intros Hnd Hin Hlt Hlag r. rewrite onFrame_unfold, Hlag.
  apply list_elem_of_split in Hin as (l1 & l2 & Hsplit).
  rewrite Hsplit in Hnd |- *. rewrite fmap_app in Hnd. cbn in Hnd.
  apply NoDup_app in Hnd as (_ & Hl1 & Hl2%NoDup_cons).
  destruct Hl2 as [Hl2 _].
  assert (Hn1 : h ∉ l1.*2).
  { intros Hin1. apply (Hl1 _ Hin1). left. }
  rewrite fold_left_app. cbn [fold_left].
  set (s0 := tickStart t s).
  set (s1 := fold_left _ l1 s0).
  destruct (fold_others (frameDelta t s) (tickFactor t s) l1 s0 h Hn1) as [Hrt1 Hev1].
  fold s1 in Hrt1, Hev1.
  pose proof (fold_sameStatic (frameDelta t s) (tickFactor t s) l1 s0) as Hst. fold s1 in Hst.
  destruct (fold_others (frameDelta t s) (tickFactor t s) l2
              (processSpring (frameDelta t s) (tickFactor t s) s1 (k, h)) h Hl2) as [-> ->].
  assert (Hlt1 : h < length (instances s1)) by now rewrite (ss_length _ _ Hst).
  unfold processSpring. cbn [snd].
  rewrite forLoop_runtime, forLoop_trace by done.
  rewrite (activeConfig_sameStatic h s0 s1 Hst), (ss_option _ _ Hst), Hrt1.
  rewrite eventsOf_app, Hev1, eventsOf_callbacksOf.
  done.
Qed.

End Tick.

(** ** Well-formedness is kept by every operation *)

Section WellFormed.

Implicit Types (s : State) (h : nat).

Lemma wf_initial : wf initialState.
Proof.
  constructor; cbn; try done.
  - constructor.
  - constructor.
  - intros k h Hin. inversion Hin.
  - intros h Hlt. cbn in Hlt. lia.
Qed.

Lemma wf_sameStatic s s' : wf s -> sameStatic s s' -> synced s' -> wf s'.
Proof.
  intros [W1 W2 W3 W4 W5] H Hsync. constructor.
  - now rewrite (ss_springs _ _ H).
  - now rewrite (ss_springs _ _ H).
  - intros k h Hin. rewrite (ss_springs _ _ H) in Hin.
    rewrite (ss_length _ _ H), (ss_id _ _ H). now apply W3.
  - intros h Hlt. rewrite (ss_length _ _ H) in Hlt.
    rewrite (ss_config _ _ H), (ss_configs _ _ H), (ss_startConfig _ _ H). now apply W4.
  - exact Hsync.
Qed.

(** New configuration objects, or another state of the frame loop. *)
Lemma wf_grow s s' :
  wf s -> springs s' = springs s -> instances s' = instances s ->
  length (configs s) <= length (configs s') -> synced s' -> wf s'.
Proof.
  intros [W1 W2 W3 W4 W5] Hs Hi Hc Hsync. constructor.
  - now rewrite Hs.
  - now rewrite Hs.
  - intros k h Hin. rewrite Hs in Hin. unfold inst. rewrite Hi. now apply W3.
  - intros h Hlt. rewrite Hi in Hlt. unfold rt_of, inst. rewrite Hi.
    destruct (W4 h Hlt) as [Ha Hb]. split; [unfold inst in Ha; lia|].
    intros a Ha'. specialize (Hb a Ha'). lia.
  - exact Hsync.
Qed.

Lemma wf_synced s : wf s -> synced s.
Proof. now intros []. Qed.

Lemma wf_fire b h cb s : wf s -> wf (fire b h cb s).
Proof.
  intros W. eapply wf_sameStatic; [done | apply (sameBut_fire b 0) |].
  now apply synced_fire, wf_synced.
Qed.

Lemma wf_checkIdle s : wf s -> wf (checkIdle s).
Proof.
  intros W. eapply wf_sameStatic; [done | apply (sameBut_checkIdle 0) |].
  now apply synced_checkIdle, wf_synced.
Qed.

Lemma wf_updRuntime h f s :
  (forall rt, startConfig (f rt) = startConfig rt) -> wf s -> wf (updRuntime h f s).
Proof.
  intros Hf W. eapply wf_sameStatic; [done | now apply (sameBut_updRuntime h) |].
  now apply synced_updRuntime, wf_synced.
Qed.

Lemma synced_startAnimationFrame s : synced s -> synced (startAnimationFrame s).
Proof.
  unfold synced, startAnimationFrame. intros Hs.
  destruct (raf s) as [r|] eqn:Hr; cbn; rewrite ?Hr; [done|]. now rewrite Hs.
Qed.

Lemma wf_startAnimationFrame s : wf s -> wf (startAnimationFrame s).
Proof.
  intros W. apply (wf_grow s); try done.
  - unfold startAnimationFrame. now destruct (raf s).
  - unfold startAnimationFrame. now destruct (raf s).
  - unfold startAnimationFrame. now destruct (raf s).
  - now apply synced_startAnimationFrame, wf_synced.
Qed.

Lemma wf_onFrame t s : wf s -> wf (onFrame t (set_pending [] s)).
Proof.
  intros W. rewrite onFrame_unfold. set (s0 := set_pending [] s).
  assert (W0 : wf (tickStart t s0)) by now apply (wf_grow s).
  destruct (100 <? frameDelta t s0)%float.
  - now apply (wf_grow (tickStart t s0)).
  - eapply wf_sameStatic; [exact W0 | |].
    + exact (fold_sameStatic (frameDelta t s0) (tickFactor t s0) (springs s0) (tickStart t s0)).
    + now apply fold_synced, wf_synced.
Qed.

Lemma wf_frame t s : wf s -> wf (frame t s).
Proof.
  intros W. unfold frame. destruct (pending s) as [|r rest] eqn:Hp; [done|].
  pose proof (wf_pending _ W) as Hsync. rewrite Hp in Hsync.
  destruct (raf s) as [r'|] eqn:Hr; [|done]. injection Hsync as -> ->.
  now apply wf_onFrame.
Qed.

End WellFormed.

Section WellFormedOps.

Implicit Types (s : State) (h : nat).

Lemma wf_get_config h s : wf s -> wf (get_config h s).2.
Proof.
  intros W. apply (wf_grow s); try done.
  - cbn. rewrite length_app. lia.
  - exact (wf_synced _ W).
Qed.

Lemma wf_set h value s : wf s -> wf (set h value s).
Proof.
  intros W. unfold set. apply wf_checkIdle.
  destruct (negb _); [apply wf_fire|]; now apply wf_updRuntime.
Qed.

Lemma wf_remove h s : wf s -> wf (remove h s).
Proof.
  intros [W1 W2 W3 W4 W5]. unfold remove, mapDelete. constructor; cbn; try done.
  - eapply sublist_NoDup; [exact W1|]. apply fmap_sublist, sublist_filter.
  - eapply sublist_NoDup; [exact W2|]. apply fmap_sublist, sublist_filter.
  - intros k h' Hin. apply list_elem_of_filter in Hin as [_ Hin]. now apply W3.
Qed.

Lemma generateId_fresh keys draws k : generateId keys draws = Some k -> k ∉ keys.
Proof.
  induction draws as [|d rest IH]; cbn; [done|].
  destruct (decide (keyOf d ∈ keys)); [done|]. now intros [= <-].
Qed.

Lemma mapSet_fresh k h m : k ∉ m.*1 -> mapSet k h m = m ++ [(k, h)].
Proof. intros Hk. unfold mapSet. now rewrite decide_False. Qed.

(** The state after [controller(option)], when the key [k] was drawn. *)
Lemma controller_Some opt draws s h s' :
  controller opt draws s = Some (h, s') ->
  exists k, (k ∉ (springs s).*1) /\ h = length (instances s) /\
    springs s' = springs s ++ [(k, h)] /\
    instances s' = instances s ++
      [mkInstance k opt
         (mkSpringInfo
            (mkRuntime 0%float (default 0%float (opt_value opt)) 0%float false None)
            (length (configs s)))] /\
    configs s' = configs s ++
      [spread springDefaultConfig (default emptyConfig (opt_config opt))] /\
    raf s' = raf s /\ lastT s' = lastT s /\ pending s' = pending s /\
    nextRequest s' = nextRequest s /\ trace s' = trace s.
Proof.
  unfold controller. destruct (generateId _ draws) as [k|] eqn:Hk; [|done].
  pose proof (generateId_fresh _ _ _ Hk) as Hfresh.
  cbn. intros [= <- <-]. exists k. cbn. rewrite mapSet_fresh by done. done.
Qed.

Lemma wf_controller opt draws s h s' :
  wf s -> controller opt draws s = Some (h, s') -> wf s'.
Proof.
  intros [W1 W2 W3 W4 W5] Hc.
  apply controller_Some in Hc as (k & Hk & -> & Hsp & Hin & Hcf & Hraf & _ & Hp & _).
  assert (Hhandles : length (instances s) ∉ (springs s).*2).
  { intros Hin'. apply list_elem_of_fmap in Hin' as ([k' h'] & Hh & Hin'). cbn in Hh.
    subst h'. apply W3 in Hin' as [Hlt _]. lia. }
  constructor.
  - rewrite Hsp, fmap_app. apply NoDup_app. split; [done|]. split.
    + intros x Hx Hx'. cbn in Hx'. apply list_elem_of_singleton in Hx'. now subst.
    + apply NoDup_singleton.
  - rewrite Hsp, fmap_app. apply NoDup_app. split; [done|]. split.
    + intros x Hx Hx'. cbn in Hx'. apply list_elem_of_singleton in Hx'. now subst.
    + apply NoDup_singleton.
  - intros k' h' Hin'. rewrite Hsp in Hin'. unfold inst. rewrite Hin, length_app. cbn.
    apply elem_of_app in Hin' as [Hin'|Hin'].
    + apply W3 in Hin' as [Hlt Hid]. split; [lia|].
      rewrite lookup_app_l by done. exact Hid.
    + apply list_elem_of_singleton in Hin'. injection Hin' as -> ->. split; [lia|].
      rewrite lookup_app_r by lia. now rewrite Nat.sub_diag.
  - intros h' Hlt. unfold rt_of, inst. rewrite Hin, Hcf, !length_app in *. cbn in *.
    destruct (decide (h' < length (instances s))) as [Hlt'|Hge].
    + rewrite lookup_app_l by done. destruct (W4 h' Hlt') as [Ha Hb].
      split; [unfold inst in Ha; lia|]. intros a Ha'. specialize (Hb a Ha'). lia.
    + assert (h' = length (instances s)) as -> by lia.
      rewrite lookup_app_r by lia. rewrite Nat.sub_diag. cbn. split; [lia | done].
  - now rewrite Hraf, Hp.
Qed.

Lemma wf_start h value config s : wf s -> wf (start h value config s).
Proof.
  intros W. unfold start.
  set (s1 := updRuntime h (setRunning true) (updRuntime h _ s)).
  assert (W1 : wf s1) by (apply wf_updRuntime; [done|]; now apply wf_updRuntime).
  destruct (get_config h s1) as [c s2] eqn:Hg.
  assert (W2 : wf s2) by (change s2 with (c, s2).2; rewrite <- Hg; now apply wf_get_config).
  destruct (allocConfig _ s2) as [a s3] eqn:Ha.
  apply wf_startAnimationFrame, wf_fire, wf_updRuntime; [done|].
  unfold allocConfig in Ha. injection Ha as <- <-.
  destruct W2 as [V1 V2 V3 V4 V5]. constructor; try done.
  - intros k h' Hin. rewrite updRuntime_length. cbn.
    destruct (V3 k h' Hin) as [Hlt Hid]. split; [done|]. rewrite <- Hid.
    destruct (inst_updRuntime_cases h h'
      (fun rt => mkRuntime (goal rt) (current rt) (v rt) (running rt) (Some (length (configs s2))))
      (set_configs (configs s2 ++ [spread (spread springDefaultConfig (asSpringConfig (cfgAt c s2)))
         (default emptyConfig config)]) s2)) as [->|[-> ->]]; done.
  - intros h' Hlt. rewrite updRuntime_length in Hlt. cbn in Hlt.
    destruct (V4 h' Hlt) as [Hc Hs]. cbn [configs set_configs updRuntime set_instances].
    rewrite length_app. cbn [length]. unfold rt_of.
    destruct (inst_updRuntime_cases h h'
      (fun rt => mkRuntime (goal rt) (current rt) (v rt) (running rt) (Some (length (configs s2))))
      (set_configs (configs s2 ++ [spread (spread springDefaultConfig (asSpringConfig (cfgAt c s2)))
         (default emptyConfig config)]) s2)) as [->|[-> ->]].
    + split; [unfold inst in *; cbn; lia|]. intros a Ha. specialize (Hs a Ha). lia.
    + cbn. split; [unfold inst in *; cbn in *; lia|]. intros a [= <-]. lia.
Qed.

Lemma wf_step s o s' : wf s -> step s o = Some s' -> wf s'.
Proof.
  intros W. destruct o as [opt draws|h value override|h value|h|h|h|t]; cbn [step].
  - destruct (controller opt draws s) as [[h s0]|] eqn:Hc; cbn [fmap option_fmap option_map snd];
      [|done].
    intros [= <-]. eapply wf_controller; eauto.
  - intros [= <-]. now apply wf_start.
  - intros [= <-]. now apply wf_set.
  - now intros [= <-].
  - intros [= <-]. now apply wf_remove.
  - intros [= <-]. now apply wf_get_config.
  - intros [= <-]. now apply wf_frame.
Qed.

Lemma wf_run ops s s' : wf s -> run ops s = Some s' -> wf s'.
Proof.
  revert s. induction ops as [|o ops IH]; intros s W; cbn.
  - now intros [= <-].
  - destruct (step s o) as [s0|] eqn:Hstep; [|done].
    apply IH. eapply wf_step; eauto.
Qed.

Lemma reachable_wf s : reachable s -> wf s.
Proof. intros [ops Hrun]. eapply wf_run; [apply wf_initial | exact Hrun]. Qed.

End WellFormedOps.

(** ** The idle check *)

Lemma hasRunning_fold (s : State) (l : list (string * nat)) (acc : bool) :
  fold_left (fun acc e => acc || running (rt_of e.2 s)) l acc =
  acc || existsb (fun e => running (rt_of e.2 s)) l.
Proof.
  revert acc. induction l as [|e l IH]; intros acc; cbn.
  - now rewrite orb_false_r.
  - now rewrite IH, orb_assoc.
Qed.

(** With no registered spring running, [checkIdle] stops the loop. *)
Lemma checkIdle_idle (s : State) :
  (forall k h, (k, h) ∈ springs s -> running (rt_of h s) = false) ->
  checkIdle s = stopAnimationFrame s.
Proof.
  intros Hidle. unfold checkIdle. rewrite hasRunning_fold. cbn.
  destruct (existsb _ _) eqn:Hex; [|reflexivity].
  apply existsb_exists in Hex as ([k h] & Hin & Hrun).
  apply list_elem_of_In in Hin. cbn in Hrun. rewrite (Hidle k h Hin) in Hrun. discriminate.
Qed.

(** With a registered spring running, [checkIdle] does nothing. *)
Lemma checkIdle_running (s : State) k h :
  (k, h) ∈ springs s -> running (rt_of h s) = true -> checkIdle s = s.
Proof.
  intros Hin Hrun. unfold checkIdle. rewrite hasRunning_fold. cbn.
  destruct (existsb _ _) eqn:Hex; [reflexivity|].
  assert (existsb (fun e => running (rt_of e.2 s)) (springs s) = true) as Hex'.
  { apply existsb_exists. exists (k, h). split; [now apply list_elem_of_In | done]. }
  congruence.
Qed.

Lemma raf_stop (s : State) : raf (stopAnimationFrame s) = None.
Proof. unfold stopAnimationFrame. destruct (raf s) eqn:Hr; cbn; [done | exact Hr]. Qed.

(** ** [fire] and [startAnimationFrame] *)

Lemma springs_fire b h cb s : springs (fire b h cb s) = springs s.
Proof. unfold fire. now destruct b. Qed.

Lemma inst_fire b h h' cb s : inst h' (fire b h cb s) = inst h' s.
Proof. unfold inst. now rewrite instances_fire. Qed.

Lemma configs_fire b h cb s : configs (fire b h cb s) = configs s.
Proof. unfold fire. now destruct b. Qed.

Lemma lastT_fire b h cb s : lastT (fire b h cb s) = lastT s.
Proof. unfold fire. now destruct b. Qed.

Lemma raf_fire b h cb s : raf (fire b h cb s) = raf s.
Proof. unfold fire. now destruct b. Qed.

Lemma instances_startAnimationFrame (s : State) :
  instances (startAnimationFrame s) = instances s.
Proof. unfold startAnimationFrame. now destruct (raf s). Qed.

Lemma inst_startAnimationFrame h s : inst h (startAnimationFrame s) = inst h s.
Proof. unfold inst. now rewrite instances_startAnimationFrame. Qed.

Lemma configs_startAnimationFrame (s : State) :
  configs (startAnimationFrame s) = configs s.
Proof. unfold startAnimationFrame. now destruct (raf s). Qed.

Lemma trace_startAnimationFrame (s : State) :
  trace (startAnimationFrame s) = trace s.
Proof. unfold startAnimationFrame. now destruct (raf s). Qed.

Lemma springs_startAnimationFrame (s : State) :
  springs (startAnimationFrame s) = springs s.
Proof. unfold startAnimationFrame. now destruct (raf s). Qed.

Lemma lastT_startAnimationFrame (s : State) :
  lastT (startAnimationFrame s) = lastT s.
Proof. unfold startAnimationFrame. now destruct (raf s). Qed.

Lemma raf_startAnimationFrame s : raf (startAnimationFrame s) <> None.
Proof. unfold startAnimationFrame. destruct (raf s) eqn:Hr; cbn; congruence. Qed.

(** After [startAnimationFrame] a frame request is pending. *)
Lemma startAnimationFrame_active (s : State) :
  synced s ->
  exists r, raf (startAnimationFrame s) = Some r /\ pending (startAnimationFrame s) = [r].
Proof.
  unfold synced, startAnimationFrame. intros Hs.
  destruct (raf s) as [r|] eqn:Hr.
  - exists r. now rewrite Hr.
  - exists (nextRequest s). cbn. now rewrite Hs.
Qed.

(** ** [start] and [set] *)

(** The steps of [start], one state after the other. *)
Lemma start_unfold h value config s :
  let s1 :=
    updRuntime h (setRunning true)
      (updRuntime h
         (fun rt => mkRuntime value (current rt) (v rt) (running rt) (startConfig rt)) s) in
  let s2 := (get_config h s1).2 in
  let active :=
    spread (spread springDefaultConfig (asSpringConfig (cfgAt (get_config h s1).1 s2)))
      (default emptyConfig config) in
  let a := length (configs s2) in
  let s3 := set_configs (configs s2 ++ [active]) s2 in
  let s4 :=
    updRuntime h (fun rt => mkRuntime (goal rt) (current rt) (v rt) (running rt) (Some a)) s3 in
  let s5 :=
    updRuntime h
      (fun rt => mkRuntime (goal rt) (current rt) (default 0%float (velocity (cfgAt a s4)))
                   (running rt)
                   (startConfig rt)) s4 in
  start h value config s =
  startAnimationFrame (fire (onStart (option_ (inst h s5))) h OnStart s5).
Proof. reflexivity. Qed.

(** [start] keeps the registry and the closures, and calls no callback
    of another spring. *)
Lemma start_frame h value override s :
  springs (start h value override s) = springs s /\
  length (instances (start h value override s)) = length (instances s) /\
  forall h', h' <> h ->
    eventsOf h' (trace (start h value override s)) = eventsOf h' (trace s).
Proof.
  rewrite start_unfold. cbn zeta.
  rewrite springs_startAnimationFrame, instances_startAnimationFrame,
    trace_startAnimationFrame, instances_fire, springs_fire.
  split; [reflexivity|].
  split; [rewrite !updRuntime_length; cbn; now rewrite !length_alter|].
  intros h' Hne. now rewrite eventsOf_fire_ne.
Qed.

Lemma config_updRuntime h h' f s :
  config (info (inst h' (updRuntime h f s))) = config (info (inst h' s)).
Proof. destruct (inst_updRuntime_cases h h' f s) as [->|[-> ->]]; done. Qed.

Lemma rt_of_updRuntime_cases h h' f s :
  rt_of h' (updRuntime h f s) = rt_of h' s \/
  (h' = h /\ rt_of h' (updRuntime h f s) = f (rt_of h s)).
Proof.
  unfold rt_of. destruct (inst_updRuntime_cases h h' f s) as [->|[-> ->]]; [now left|].
  right. done.
Qed.

(** [start] keeps the address of every base configuration and every
    configuration object that existed. *)
Lemma start_configs h value override s :
  (forall h', config (info (inst h' (start h value override s))) = config (info (inst h' s))) /\
  (forall a, a < length (configs s) -> cfgAt a (start h value override s) = cfgAt a s).
Proof.
  rewrite start_unfold.
  set (f1 := fun rt => mkRuntime value (current rt) (v rt) (running rt) (startConfig rt)).
  set (s1 := updRuntime h (setRunning true) (updRuntime h f1 s)).
  set (s2 := (get_config h s1).2).
  set (active := spread _ (default emptyConfig override)).
  set (s3 := set_configs (configs s2 ++ [active]) s2).
  set (s4 := updRuntime h _ s3).
  set (s5 := updRuntime h _ s4).
  split.
  - intros h'. rewrite inst_startAnimationFrame, inst_fire.
    unfold s5, s4. rewrite !config_updRuntime.
    change (inst h' s3) with (inst h' s1).
    unfold s1. now rewrite !config_updRuntime.
  - intros a Ha. unfold cfgAt. rewrite configs_startAnimationFrame, configs_fire.
    change (configs s5) with ((configs s ++ [spread (cfgAt (config (info (inst h s1))) s1)
                                               emptyConfig]) ++ [active]).
    rewrite <- app_assoc. now rewrite lookup_app_l.
Qed.

Lemma start_configs_length h value override s :
  length (configs (start h value override s)) = S (S (length (configs s))).
Proof.
  rewrite start_unfold. cbn zeta. rewrite configs_startAnimationFrame, configs_fire.
  cbn. rewrite !length_app. cbn. lia.
Qed.

(** The [startConfig] of a spring after [start] on some controller: what
    it was, or the object that this [start] made. *)
Lemma start_startConfig h value override s h' :
  startConfig (rt_of h' (start h value override s)) = startConfig (rt_of h' s) \/
  startConfig (rt_of h' (start h value override s)) = Some (S (length (configs s))).
Proof.
  rewrite start_unfold.
  set (f1 := fun rt => mkRuntime value (current rt) (v rt) (running rt) (startConfig rt)).
  set (s1 := updRuntime h (setRunning true) (updRuntime h f1 s)).
  set (s2 := (get_config h s1).2).
  set (active := spread _ (default emptyConfig override)).
  set (s3 := set_configs (configs s2 ++ [active]) s2).
  set (f4 := fun rt => mkRuntime (goal rt) (current rt) (v rt) (running rt)
                         (Some (length (configs s2)))).
  set (s4 := updRuntime h f4 s3).
  set (f5 := fun rt => mkRuntime (goal rt) (current rt) (default 0%float (velocity (cfgAt _ s4)))
                         (running rt)
                         (startConfig rt)).
  set (s5 := updRuntime h f5 s4).
  assert (H1 : startConfig (rt_of h' s3) = startConfig (rt_of h' s)).
  { change (rt_of h' s3) with (rt_of h' s1).
    assert (Hst : sameStatic s s1).
    { eapply sameStatic_trans; [apply (sameBut_updRuntime h f1 s) | apply (sameBut_updRuntime h)];
        done. }
    apply (ss_startConfig _ _ Hst). }
  assert (Hlen : length (configs s2) = S (length (configs s))).
  { unfold s2, get_config, allocConfig. cbn. rewrite length_app. cbn. lia. }
  replace (rt_of h' (startAnimationFrame (fire (onStart (option_ (inst h s5))) h OnStart s5)))
    with (rt_of h' s5)
    by (unfold rt_of, inst; now rewrite instances_startAnimationFrame, instances_fire).
  unfold s5.
  destruct (rt_of_updRuntime_cases h h' f5 s4) as [->|[-> ->]].
  - unfold s4.
    destruct (rt_of_updRuntime_cases h h' f4 s3) as [->|[-> ->]];
      [now left | right; unfold f4; cbn [startConfig]; now rewrite Hlen].
  - unfold f5 at 1. cbn [startConfig]. unfold s4.
    destruct (rt_of_updRuntime_cases h h f4 s3) as [->|[_ ->]];
      [now left | right; unfold f4; cbn [startConfig]; now rewrite Hlen].
Qed.

Lemma start_lastT h value override s : lastT (start h value override s) = lastT s.
Proof.
  rewrite start_unfold. cbn zeta. now rewrite lastT_startAnimationFrame, lastT_fire.
Qed.

Lemma start_active h value override s : exists r, raf (start h value override s) = Some r.
Proof.
  destruct (raf (start h value override s)) as [r|] eqn:Hr; [now exists r|].
  rewrite start_unfold in Hr. now apply raf_startAnimationFrame in Hr.
Qed.

(** So does [set]. *)
Lemma set_frame h value s :
  springs (set h value s) = springs s /\
  length (instances (set h value s)) = length (instances s) /\
  forall h', h' <> h -> eventsOf h' (trace (set h value s)) = eventsOf h' (trace s).
Proof.
  unfold set. cbn zeta.
  rewrite (ss_springs _ _ (proj1 (sameBut_checkIdle 0 _))), instances_checkIdle, trace_checkIdle.
  destruct (negb _).
  - rewrite instances_fire, updRuntime_length, springs_fire.
    split; [reflexivity|]. split; [done|].
    intros h' Hne. now rewrite eventsOf_fire_ne.
  - now rewrite updRuntime_length.
Qed.

Lemma set_sameStatic h value s : sameStatic s (set h value s).
Proof.
  unfold set. cbn zeta.
  eapply sameStatic_trans; [|apply (sameBut_checkIdle h)].
  destruct (negb _).
  - eapply sameStatic_trans; [|apply (sameBut_fire _ h)]. now apply (sameBut_updRuntime h).
  - now apply (sameBut_updRuntime h).
Qed.

(** ** Frames *)

(** The loop of a spring that meets no rest test makes all its passes. *)
Lemma subSteps_moving n config deltaTH rt :
  (forall i, i < n ->
     exactRest (Nat.iter i (integrate config deltaTH) rt) = false /\
     nearRest config (Nat.iter i (integrate config deltaTH) rt) = false) <->
  subSteps n config deltaTH rt = (Nat.iter n (integrate config deltaTH) rt, Moving).
Proof.
  revert rt. induction n as [|n IH]; intros rt; cbn [subSteps].
  - split; [done | intros _ i Hi; lia].
  - rewrite Nat.iter_succ_r. split.
    + intros Hall. destruct (Hall 0) as [He Hn]; [lia|].
      cbn in He, Hn. rewrite He, Hn.
      apply IH. intros i Hi. rewrite <- Nat.iter_succ_r. apply Hall. lia.
    + intros Hsub.
      destruct (exactRest rt) eqn:He; [done|].
      destruct (nearRest config rt) eqn:Hn; [done|].
      intros [|i] Hi; [done|].
      rewrite Nat.iter_succ_r. apply IH; [exact Hsub | lia].
Qed.

(** A frame, at a registered spring. *)
Lemma frame_spring t s r k h :
  wf s -> raf s = Some r -> (k, h) ∈ springs s ->
  (100 <? frameDelta t s)%float = false ->
  let res := subSteps (tickSteps t s) (activeConfig h s) (tickDeltaTH t s) (rt_of h s) in
  rt_of h (frame t s) = res.1 /\
  eventsOf h (trace (frame t s)) = eventsOf h (trace s) ++ callbacksOf (option_ (inst h s)) h res.
Proof.
  intros W Hr Hin Hlag res.
  pose proof (wf_pending _ W) as Hp. rewrite Hr in Hp.
  unfold frame. rewrite Hp.
  apply (onFrame_spring t (set_pending [] s) k h); try done.
  - exact (wf_handles _ W).
  - now apply (wf_entries _ W k h).
Qed.


Lemma frame_sameStatic t s : sameStatic s (frame t s).
Proof.
  unfold frame. destruct (pending s) as [|r rest]; [apply sameStatic_refl|].
  rewrite onFrame_unfold. set (s0 := set_pending rest s).
  destruct (100 <? _)%float.
  - now constructor.
  - eapply sameStatic_trans;
      [|exact (fold_sameStatic (frameDelta t s0) (tickFactor t s0) (springs s0) (tickStart t s0))].
    now constructor.
Qed.

(** With an empty registry a frame keeps the loop going: no spring is
    visited, so nothing calls [checkIdle]. *)
Lemma frame_empty_registry t s :
  springs s = [] -> synced s -> (exists r, raf s = Some r) ->
  springs (frame t s) = [] /\ synced (frame t s) /\ (exists r, raf (frame t s) = Some r).
Proof.
  intros Hsp Hsync [r Hr]. unfold synced in Hsync. rewrite Hr in Hsync.
  unfold frame. rewrite Hsync, onFrame_unfold. cbn [springs set_pending].
  rewrite Hsp. cbn [fold_left].
  destruct (100 <? _)%float; cbn; (split; [done|]); (split; [done|]); eauto.
Qed.

(** A frame that finds [lastT] unset makes no sub-step. *)
Lemma baseline_frame t s r k h :
  wf s -> raf s = Some r -> lastT s = (-1)%float -> is_finite t = true ->
  (k, h) ∈ springs s ->
  rt_of h (frame t s) = rt_of h s /\
  eventsOf h (trace (frame t s)) =
    eventsOf h (trace s) ++
    (if onChange (option_ (inst h s)) then [mkEvent h OnChange (current (rt_of h s))] else []).
Proof.
  intros W Hr HlastT Hfin Hin.
  assert (Hdelta : frameDelta t s = 0%float).
  { unfold frameDelta. rewrite HlastT.
    change (-1 <? 0)%float with true. now apply number_sub_self. }
  assert (Hsteps : tickSteps t s = 0).
  { unfold tickSteps, tickFactor. rewrite Hdelta. exact zero_steps. }
  destruct (frame_spring t s r k h W Hr Hin) as [Hrt Hev].
  { rewrite Hdelta. reflexivity. }
  rewrite Hsteps in Hrt, Hev. split; [exact Hrt | exact Hev].
Qed.

(** ** Closures that the registry does not hold *)



(** [remove] takes the closure out of the registry. *)
Lemma remove_detaches h s : wf s -> h < length (instances s) -> detached h (remove h s).
Proof.
  intros W Hlt. split; [done|]. cbn. intros Hin.
  apply list_elem_of_fmap in Hin as ([k h'] & Hh & Hin). cbn in Hh. subst h'.
  apply list_elem_of_filter in Hin as [Hk Hin]. cbn in Hk.
  destruct (wf_entries _ W k h Hin) as [_ Hid]. congruence.
Qed.

(** ** Configuration objects that no spring refers to *)

Lemma unreferenced_sameStatic a s s' :
  unreferenced a s -> sameStatic s s' -> unreferenced a s'.
Proof.
  intros [Ha Hun] H. split; [now rewrite (ss_configs _ _ H)|].
  intros h Hlt. rewrite (ss_length _ _ H) in Hlt.
  rewrite (ss_config _ _ H), (ss_startConfig _ _ H). now apply Hun.
Qed.

(** An object that no spring refers to stays so: a spring only ever
    takes a reference to an object that it has just made. *)
Lemma step_unreferenced a s o s' :
  unreferenced a s -> step s o = Some s' -> unreferenced a s'.
Proof.
  intros [Ha Hun].
  destruct o as [opt draws|h value override|h value|h|h|h|t]; cbn [step].
  - destruct (controller opt draws s) as [[h0 s0]|] eqn:Hc; cbn [fmap option_fmap option_map snd];
      [|done].
    intros [= <-].
    apply controller_Some in Hc as (k & _ & -> & _ & Hin & Hcf & _).
    split; [rewrite Hcf, length_app; lia|].
    intros h Hlt. unfold rt_of, inst. rewrite Hin in *. rewrite length_app in Hlt. cbn in Hlt.
    destruct (decide (h < length (instances s))) as [Hlt'|Hge].
    + rewrite lookup_app_l by done. now apply Hun.
    + assert (h = length (instances s)) as -> by lia.
      rewrite lookup_app_r by lia. rewrite Nat.sub_diag. cbn. split; [lia | done].
  - intros [= <-]. split; [rewrite start_configs_length; lia|].
    intros h' Hlt. rewrite (proj1 (proj2 (start_frame h value override s))) in Hlt.
    rewrite (proj1 (start_configs h value override s)).
    split; [now apply Hun|].
    destruct (start_startConfig h value override s h') as [->| ->]; [now apply Hun|].
    intros [= <-]. lia.
  - intros [= <-]. apply (unreferenced_sameStatic a s); [done | apply set_sameStatic].
  - now intros [= <-].
  - now intros [= <-].
  - intros [= <-]. split; [cbn; rewrite length_app; lia | exact Hun].
  - intros [= <-]. apply (unreferenced_sameStatic a s); [done | apply frame_sameStatic].
Qed.

Lemma run_unreferenced a ops s s' :
  unreferenced a s -> run ops s = Some s' -> unreferenced a s'.
Proof.
  revert s. induction ops as [|o ops IH]; intros s Hun; cbn.
  - now intros [= <-].
  - destruct (step s o) as [s0|] eqn:Hstep; [|done].
    apply IH. eapply step_unreferenced; eauto.
Qed.

(** The object that [get config()] returns is new. *)
Lemma get_config_unreferenced h s :
  wf s -> unreferenced (get_config h s).1 (get_config h s).2.
Proof.
  intros W. split; [cbn; rewrite length_app; cbn; lia|].
  intros h' Hlt. destruct (wf_configs _ W h' Hlt) as [Hc Hs].
  split; [cbn; unfold inst in *; cbn in *; lia|].
  intros Heq. apply Hs in Heq. cbn in Heq. lia.
Qed.

(** ** [lastT] while the loop is idle *)

Lemma baseline_stop s : baselineUnset (stopAnimationFrame s).
Proof. intros _. unfold stopAnimationFrame. now destruct (raf s). Qed.

Lemma baseline_checkIdle s : baselineUnset s -> baselineUnset (checkIdle s).
Proof. unfold checkIdle. destruct (fold_left _ _ _); [done | intros _; apply baseline_stop]. Qed.

Lemma baseline_fire b h cb s : baselineUnset s -> baselineUnset (fire b h cb s).
Proof. unfold baselineUnset. now rewrite raf_fire, lastT_fire. Qed.

Lemma baseline_forLoop n deltaTH config opt h s :
  baselineUnset s -> baselineUnset (forLoop n deltaTH config opt h s).
Proof.
  revert s. induction n as [|n IH]; intros s Hs; simpl.
  - now apply baseline_fire.
  - destruct (exactRest (rt_of h s)).
    + destruct (running (rt_of h s)); [|done].
      apply baseline_checkIdle. now apply (baseline_fire _ h OnRest s).
    + destruct (nearRest config (rt_of h s)).
      * apply baseline_checkIdle.
        apply (baseline_fire _ h OnRest
                 (fire (onChange opt) h OnChange (updRuntime h snap s))).
        now apply (baseline_fire _ h OnChange (updRuntime h snap s)).
      * now apply IH.
Qed.

Lemma baseline_fold deltaT factor l s :
  baselineUnset s -> baselineUnset (fold_left (processSpring deltaT factor) l s).
Proof.
  revert s. induction l as [|e l IH]; intros s Hs; cbn [fold_left]; [done|].
  apply IH. now apply baseline_forLoop.
Qed.

Lemma baseline_step s o s' : baselineUnset s -> step s o = Some s' -> baselineUnset s'.
Proof.
  intros Hs. destruct o as [opt draws|h value override|h value|h|h|h|t]; cbn [step].
  - destruct (controller opt draws s) as [[h0 s0]|] eqn:Hc; cbn; [|done]. intros [= <-].
    apply controller_Some in Hc as (k & _ & _ & _ & _ & _ & Hraf & HlastT & _).
    unfold baselineUnset. now rewrite Hraf, HlastT.
  - intros [= <-]. rewrite start_unfold. cbn zeta. intros Hraf.
    now apply raf_startAnimationFrame in Hraf.
  - intros [= <-]. unfold set. cbn zeta. apply baseline_checkIdle.
    destruct (negb _); [apply baseline_fire|]; exact Hs.
  - now intros [= <-].
  - now intros [= <-].
  - now intros [= <-].
  - intros [= <-]. unfold frame. destruct (pending s) as [|r rest]; [done|].
    rewrite onFrame_unfold. destruct (100 <? _)%float; [done|].
    apply baseline_fold. done.
Qed.

Lemma reachable_baseline s : reachable s -> baselineUnset s.
Proof.
  intros [ops Hrun]. assert (H0 : baselineUnset initialState) by done.
  revert Hrun H0. generalize initialState.
  induction ops as [|o ops IH]; intros s0; cbn.
  - now intros [= <-].
  - destruct (step s0 o) as [s1|] eqn:Hstep; [|done].
    intros Hrun H0. apply (IH s1 Hrun). eapply baseline_step; eauto.
Qed.

(** * The claims *)

(** ** C1: the rest tests of a sub-step *)

(** C1, as stated, fails: at exact rest the idle check is made only when
    the spring was running.  Here the spring is at exact rest and not
    running, the loop is active and no spring is running; the pass leaves
    the loop active, an idle check would have stopped it.  So does the
    whole frame at 1016, with its 96 sub-steps. *)
Lemma exact_rest_idle_check_skipped :
  exactRest (rt_of 0 idleLoopState) = true /\
  running (rt_of 0 idleLoopState) = false /\
  raf (forLoop 1 0.16%float springDefaultConfig (allCallbacks None) 0 idleLoopState)
    = Some 2%positive /\
  raf (checkIdle (updRuntime 0 (setRunning false) idleLoopState)) = None /\
  forLoop 1 0.16%float springDefaultConfig (allCallbacks None) 0 idleLoopState
    <> checkIdle (updRuntime 0 (setRunning false) idleLoopState) /\
  tickSteps 1016%float idleLoopState = 96 /\
  raf (frame 1016%float idleLoopState) = Some 3%positive.
Proof.
  do 4 (split; [vm_compute; reflexivity|]).
  split; [|split; vm_compute; reflexivity].
  intros H. apply (f_equal raf) in H. vm_compute in H. discriminate.
Qed.

(** C1, amended.  Each pass of the loop tests rest before it integrates.
    At exact rest (tested first), if the spring was running, [onRest] is
    called, [running] is cleared and the idle check is made; if it was
    not running, nothing happens at all; either way no [onChange] is
    called.  Otherwise, within the precision of the configuration of the
    loop, [current] is set to [goal] and [v] to 0, [onChange] then
    [onRest] are called, [running] is cleared and the idle check is made.
    In both cases the passes that are left are not run.  The loop of a
    spring is run with the configuration in use, [startConfig] if there
    is one and the base configuration otherwise. *)
Theorem rest_check n deltaTH config opt h s :
  h < length (instances s) ->
  let rt := rt_of h s in
  let s' := forLoop (S n) deltaTH config opt h s in
  (exactRest rt = true -> running rt = true ->
     exists s0, s' = checkIdle s0 /\
       rt_of h s0 = setRunning false rt /\
       trace s0 = trace s ++ (if onRest opt then [mkEvent h OnRest (current rt)] else []) /\
       sameBut h s s0 /\
       raf s0 = raf s /\ lastT s0 = lastT s /\ pending s0 = pending s) /\
  (exactRest rt = true -> running rt = false -> s' = s) /\
  (exactRest rt = false -> nearRest config rt = true ->
     exists s0, s' = checkIdle s0 /\
       rt_of h s0 = mkRuntime (goal rt) (goal rt) 0%float false (startConfig rt) /\
       trace s0 = trace s
         ++ (if onChange opt then [mkEvent h OnChange (goal rt)] else [])
         ++ (if onRest opt then [mkEvent h OnRest (goal rt)] else []) /\
       sameBut h s s0 /\
       raf s0 = raf s /\ lastT s0 = lastT s /\ pending s0 = pending s) /\
  (exactRest rt = true \/ nearRest config rt = true ->
     s' = forLoop 1 deltaTH config opt h s) /\
  (forall deltaT hPFrameFactor k,
     processSpring deltaT hPFrameFactor s (k, h) =
     forLoop (iterations hPFrameFactor) (deltaT / hPFrameFactor)%float
       (activeConfig h s) (option_ (inst h s)) h s).
Proof.
  intros Hlt rt s'. subst s'. cbn [forLoop]. fold rt.
  repeat split.
  - intros -> ->.
    exists (updRuntime h (setRunning false) (fire (onRest opt) h OnRest s)).
    split; [done|]. split.
    { rewrite rt_of_updRuntime by now rewrite instances_fire. now rewrite rt_of_fire. }
    split; [now rewrite trace_updRuntime, trace_fire|].
    split; [|unfold fire; now destruct (onRest opt)].
    eapply sameBut_trans; [apply sameBut_fire | now apply sameBut_updRuntime].
  - now intros -> ->.
  - intros -> ->.
    exists (updRuntime h (setRunning false) (fire (onRest opt) h OnRest
              (fire (onChange opt) h OnChange (updRuntime h snap s)))).
    split; [done|]. split.
    { rewrite rt_of_updRuntime by now rewrite !instances_fire, updRuntime_length.
      now rewrite !rt_of_fire, rt_of_updRuntime. }
    split.
    { rewrite trace_updRuntime, !trace_fire, rt_of_fire, rt_of_updRuntime by done.
      now rewrite <- app_assoc. }
    split; [|unfold fire; now destruct (onRest opt), (onChange opt)].
    eapply sameBut_trans; [|now apply sameBut_updRuntime].
    eapply sameBut_trans; [|apply sameBut_fire].
    eapply sameBut_trans; [|apply sameBut_fire].
    now apply sameBut_updRuntime.
  - intros [->| Hnear]; [done|]. rewrite Hnear. now destruct (exactRest rt).
Qed.

Lemma rest_check_witness :
  exists s0,
    forLoop 5 0.16%float springDefaultConfig (allCallbacks None) 0 nearRestState
      = checkIdle s0 /\
    rt_of 0 s0 = mkRuntime 100%float 100%float 0%float false (Some 2) /\
    trace s0 = trace nearRestState
      ++ [mkEvent 0 OnChange 100%float; mkEvent 0 OnRest 100%float].
Proof.
  destruct (rest_check 4 0.16%float springDefaultConfig (allCallbacks None) 0 nearRestState)
    as (_ & _ & Hnear & _ & _).
  - vm_compute. lia.
  - destruct Hnear as (s0 & Hloop & Hrt & Htrace & _).
    + vm_compute. reflexivity.
    + vm_compute. reflexivity.
    + exists s0. split; [exact Hloop|]. split; [exact Hrt | exact Htrace].
Defined.

(** ** C2: the integration of a sub-step *)

(** C2.  In a pass of the loop in which neither rest test holds, the
    spring is advanced by exactly one explicit Euler step: the new
    velocity is [v + (accel * deltaTH) / 1000] with
    [accel = (tension * (goal - current) - friction * v) / mass], the new
    position is [current + (newVelocity * deltaTH) / 1000], and [running]
    is set; nothing else changes and no callback is called before the
    passes that are left.  (A field of the configuration that holds
    [undefined] enters the arithmetic as NaN.) *)
Theorem euler_substep n deltaTH config opt h s :
  h < length (instances s) ->
  exactRest (rt_of h s) = false ->
  nearRest config (rt_of h s) = false ->
  let rt := rt_of h s in
  let accel :=
    ((toNumber (tension config) * (goal rt - current rt) - toNumber (friction config) * v rt)
     / toNumber (mass config))%float in
  let v' := (v rt + accel * deltaTH / 1000)%float in
  exists s',
    forLoop (S n) deltaTH config opt h s = forLoop n deltaTH config opt h s' /\
    rt_of h s' =
      mkRuntime (goal rt) (current rt + v' * deltaTH / 1000)%float v' true (startConfig rt) /\
    sameBut h s s' /\
    trace s' = trace s /\ raf s' = raf s /\ lastT s' = lastT s /\ pending s' = pending s.
Proof.
  intros Hlt Hexact Hnear rt accel v'.
  exists (updRuntime h (integrate config deltaTH) s). split.
  - cbn [forLoop]. now rewrite Hexact, Hnear.
  - split; [now rewrite rt_of_updRuntime|].
    split; [now apply sameBut_updRuntime | done].
Qed.

Lemma euler_substep_witness :
  exists s',
    forLoop 3 0.16%float springDefaultConfig (allCallbacks None) 0 movingState =
      forLoop 2 0.16%float springDefaultConfig (allCallbacks None) 0 s' /\
    running (rt_of 0 s') = true /\ trace s' = trace movingState.
Proof.
  destruct (euler_substep 2 0.16%float springDefaultConfig (allCallbacks None) 0 movingState)
    as (s' & Hloop & Hrt & _ & Htrace & _).
  - vm_compute. lia.
  - vm_compute. reflexivity.
  - vm_compute. reflexivity.
  - exists s'. split; [exact Hloop|]. split; [now rewrite Hrt | exact Htrace].
Defined.

(** ** C3: [set] *)

(** C3, as stated, fails for NaN: [NaN !== NaN], so each [set(NaN)]
    calls [onChange]; [set(v); set(v)] calls it twice. *)
Lemma set_nan_twice_fires_twice :
  trace (after [Controller (allCallbacks None) [7%N]; Set_ 0 nan; Set_ 0 nan]) =
  [mkEvent 0 OnChange nan; mkEvent 0 OnChange nan].
Proof. vm_compute. reflexivity. Qed.

(** C3, amended.  [set(value)] leaves the spring with [goal] and
    [current] at [value], [v] at 0 and [running] cleared; [onChange] is
    called once when [value !== current] held before the call and not at
    all otherwise; no other callback is called; the idle check is made
    last.  For every [value] other than NaN a second [set(value)] calls
    nothing. *)
Theorem set_teleports h value s :
  h < length (instances s) ->
  let hasChanged := negb (value =? current (rt_of h s))%float in
  let s' := set h value s in
  rt_of h s' = mkRuntime value value 0%float false (startConfig (rt_of h s)) /\
  trace s' = trace s ++
    (if hasChanged && onChange (option_ (inst h s)) then [mkEvent h OnChange value] else []) /\
  (exists s0, s' = checkIdle s0 /\
     raf s0 = raf s /\ lastT s0 = lastT s /\ pending s0 = pending s /\ sameBut h s s0) /\
  (is_nan value = false -> trace (set h value s') = trace s').
Proof.
  intros Hlt.
  assert (Hrt : forall s1, h < length (instances s1) ->
            rt_of h (set h value s1) =
            mkRuntime value value 0%float false (startConfig (rt_of h s1))).
  { intros s1 Hlt1. unfold set. cbn zeta. rewrite rt_of_checkIdle.
    destruct (negb _); rewrite ?rt_of_fire; now rewrite rt_of_updRuntime. }
  assert (Htr : forall s1, h < length (instances s1) ->
            trace (set h value s1) = trace s1 ++
              (if negb (value =? current (rt_of h s1))%float && onChange (option_ (inst h s1))
               then [mkEvent h OnChange value] else [])).
  { intros s1 Hlt1. unfold set. cbn zeta. rewrite trace_checkIdle.
    destruct (negb _); cbn [andb].
    - rewrite trace_fire, trace_updRuntime, rt_of_updRuntime by done. cbn [current].
      now rewrite inst_updRuntime.
    - now rewrite trace_updRuntime, app_nil_r. }
  intros hasChanged s'.
  split; [now apply Hrt|]. split; [now apply Htr|]. split.
  - unfold s', set. cbn zeta. clear s' hasChanged.
    destruct (negb (value =? current (rt_of h s))%float).
    + eexists. split; [reflexivity|].
      do 3 (split; [unfold fire; now destruct (onChange _)|]).
      eapply sameBut_trans; [|apply sameBut_fire]. now apply sameBut_updRuntime.
    + eexists. split; [reflexivity|].
      do 3 (split; [done|]). now apply sameBut_updRuntime.
  - intros Hnan. unfold s'. rewrite (Htr (set h value s)).
    + rewrite Hrt by done. cbn [current].
      rewrite number_eqb_refl by done. cbn. now rewrite app_nil_r.
    + unfold set. cbn zeta. rewrite instances_checkIdle.
      destruct (negb _); rewrite ?instances_fire; now rewrite updRuntime_length.
Qed.

Lemma set_teleports_witness :
  rt_of 0 (set 0 42%float movingState) = mkRuntime 42%float 42%float 0%float false (Some 2) /\
  trace (set 0 42%float movingState) = trace movingState ++ [mkEvent 0 OnChange 42%float] /\
  trace (set 0 42%float (set 0 42%float movingState)) = trace (set 0 42%float movingState).
Proof.
  destruct (set_teleports 0 42%float movingState) as (Hrt & Htrace & _ & Hagain).
  - vm_compute. lia.
  - split; [exact Hrt|]. split; [exact Htrace|]. apply Hagain. vm_compute. reflexivity.
Defined.

(** ** C4: [start] *)

(** C4, as stated, fails: [v] is not always the [velocity] of the
    configuration in use.  With a base [velocity] of 5,
    [start(1, { velocity: undefined })] merges a configuration whose
    [velocity] holds [undefined] (the own property of the override wins
    over the base field), and [?? 0] sets [v] to 0: neither the
    [velocity] of the configuration in use nor the base one. *)
Lemma start_undefined_velocity :
  velocity (activeConfig 0 kickedSpring) = Some 5%float /\
  velocity (activeConfig 0 (start 0 1%float (Some undefinedVelocity) kickedSpring))
    = undefined /\
  v (rt_of 0 (start 0 1%float (Some undefinedVelocity) kickedSpring)) = 0%float.
Proof. repeat split; vm_compute; reflexivity. Qed.

(** C4, amended.  [start(value, config)] sets [goal] to [value] and
    [running]; the configuration in use becomes the defaults overridden
    by the base configuration overridden by [config], so a property that
    [config] has wins, also one that holds [undefined], and any other
    field is the base one; [v] is set to the [velocity] of that
    configuration, whatever it was, and to 0 when that [velocity] holds
    [undefined]; [onStart] is called; a frame request is pending
    afterwards.  [current] is kept. *)
Theorem start_spec h value override s :
  wf s ->
  h < length (instances s) ->
  let base := cfgAt (config (info (inst h s))) s in
  let active :=
    spread (spread springDefaultConfig (asSpringConfig base)) (default emptyConfig override) in
  let s' := start h value override s in
  goal (rt_of h s') = value /\
  running (rt_of h s') = true /\
  current (rt_of h s') = current (rt_of h s) /\
  activeConfig h s' = active /\
  active = spread base (default emptyConfig override) /\
  v (rt_of h s') = default 0%float (velocity active) /\
  trace s' = trace s ++
    (if onStart (option_ (inst h s)) then [mkEvent h OnStart (current (rt_of h s))] else []) /\
  (exists r, raf s' = Some r /\ pending s' = [r]).
Proof.
  intros W Hlt base active s'. unfold s'. rewrite start_unfold.
  set (f1 := fun rt => mkRuntime value (current rt) (v rt) (running rt) (startConfig rt)).
  set (s1 := updRuntime h (setRunning true) (updRuntime h f1 s)).
  set (s2 := (get_config h s1).2).
  assert (Hlt1 : h < length (instances s1)) by (unfold s1; now rewrite !updRuntime_length).
  assert (Hrt1 : rt_of h s1 = setRunning true (f1 (rt_of h s))).
  { unfold s1. rewrite rt_of_updRuntime by now rewrite updRuntime_length.
    now rewrite rt_of_updRuntime. }
  assert (Hst1 : sameStatic s s1).
  { eapply sameStatic_trans; [apply (sameBut_updRuntime h f1 s) | apply (sameBut_updRuntime h)];
      done. }
  assert (Hbase : cfgAt (get_config h s1).1 s2 = base).
  { unfold s2, get_config. rewrite cfgAt_alloc_new, spread_empty.
    unfold cfgAt. now rewrite (ss_config _ _ Hst1), (ss_configs _ _ Hst1). }
  rewrite Hbase. fold active.
  set (a := length (configs s2)).
  set (s3 := set_configs (configs s2 ++ [active]) s2).
  set (f4 := fun rt => mkRuntime (goal rt) (current rt) (v rt) (running rt) (Some a)).
  set (s4 := updRuntime h f4 s3).
  assert (Hact : cfgAt a s4 = active).
  { unfold cfgAt, s4, s3, a. cbn. rewrite lookup_app_r by lia. now rewrite Nat.sub_diag. }
  rewrite Hact.
  set (f5 := fun rt => mkRuntime (goal rt) (current rt) (default 0%float (velocity active))
                         (running rt) (startConfig rt)).
  set (s5 := updRuntime h f5 s4).
  assert (Hlt4 : h < length (instances s4)) by (unfold s4; now rewrite updRuntime_length).
  assert (Hrt5 : rt_of h s5 = f5 (f4 (setRunning true (f1 (rt_of h s))))).
  { unfold s5. rewrite rt_of_updRuntime by done.
    unfold s4. rewrite rt_of_updRuntime by done. now rewrite <- Hrt1. }
  assert (Hopt : option_ (inst h s5) = option_ (inst h s)).
  { unfold s5, s4. rewrite !inst_updRuntime by (rewrite ?updRuntime_length; done). cbn.
    change (inst h s3) with (inst h s1). now rewrite (ss_option _ _ Hst1). }
  set (s6 := fire (onStart (option_ (inst h s5))) h OnStart s5).
  assert (Hrt' : rt_of h (startAnimationFrame s6) = rt_of h s5).
  { unfold rt_of, inst. rewrite instances_startAnimationFrame. unfold s6.
    now rewrite instances_fire. }
  rewrite !Hrt', Hrt5. cbn [goal running current v f5 f4 f1 setRunning].
  do 3 (split; [reflexivity|]). split.
  { unfold activeConfig. rewrite Hrt', Hrt5. cbn [startConfig f5 f4].
    unfold cfgAt. rewrite configs_startAnimationFrame. unfold s6.
    replace (configs (fire _ h OnStart s5)) with (configs s4)
      by (unfold fire; now destruct (onStart _)).
    exact Hact. }
  split; [unfold active; now rewrite spread_full|].
  split; [reflexivity|]. split.
  { rewrite trace_startAnimationFrame. unfold s6. rewrite trace_fire, Hopt, Hrt5. done. }
  apply startAnimationFrame_active. unfold s6. apply synced_fire.
  exact (wf_synced _ W).
Qed.

Lemma start_spec_witness :
  goal (rt_of 0 (start 0 7%float (Some (mkSpringConfig None None (Some (Some 40%float)) None (Some (Some 3%float)) None)) movingState)) = 7%float /\
  v (rt_of 0 (start 0 7%float (Some (mkSpringConfig None None (Some (Some 40%float)) None (Some (Some 3%float)) None)) movingState)) = 3%float /\
  friction (activeConfig 0 (start 0 7%float (Some (mkSpringConfig None None (Some (Some 40%float)) None (Some (Some 3%float)) None)) movingState)) = Some 40%float /\
  v (rt_of 0 (start 0 1%float (Some undefinedVelocity) kickedSpring)) = 0%float.
Proof.
  destruct (start_spec 0 7%float
              (Some (mkSpringConfig None None (Some (Some 40%float)) None (Some (Some 3%float)) None))
              movingState) as (Hgoal & _ & _ & Hactive & _ & Hv & _).
  - apply reachable_wf.
    exists [Controller (allCallbacks (Some 5%float)) [7%N];
            Start 0 100%float None; Frame 1000%float].
    vm_compute. reflexivity.
  - vm_compute. lia.
  - split; [exact Hgoal|]. split; [now rewrite Hv|]. split; [now rewrite Hactive|].
    destruct (start_spec 0 1%float (Some undefinedVelocity) kickedSpring)
      as (_ & _ & _ & _ & _ & Hv0 & _).
    + apply reachable_wf.
      exists [Controller
                (mkSpringOption
                   (Some (mkSpringConfig None None None None (Some (Some 5%float)) None))
                   None true true true)
                [7%N]].
      vm_compute. reflexivity.
    + vm_compute. lia.
    + now rewrite Hv0.
Defined.

(** ** C5: the loop after the last running spring is removed *)

(** C5 fails on the code.  After [controller(); start(1); remove()] the
    registry is empty, so no registered spring is running, and the frame
    request of [start] is still pending: [remove] makes no idle check.
    Whatever frames follow, a request stays pending. *)
Theorem loop_survives_remove :
  reachable orphanLoopState /\
  springs orphanLoopState = [] /\
  raf orphanLoopState = Some 1%positive /\
  pending orphanLoopState = [1%positive] /\
  forall ts, exists r,
    raf (frames ts orphanLoopState) = Some r /\ pending (frames ts orphanLoopState) = [r].
Proof.
  split.
  { exists [Controller (allCallbacks None) [7%N]; Start 0 1%float None; Remove 0].
    vm_compute. reflexivity. }
  do 3 (split; [vm_compute; reflexivity|]).
  assert (H : forall ts s, springs s = [] -> synced s -> (exists r, raf s = Some r) ->
            exists r, raf (frames ts s) = Some r /\ pending (frames ts s) = [r]).
  { induction ts as [|t ts IH]; intros s Hsp Hsync [r Hr]; cbn.
    - exists r. split; [done|]. unfold synced in Hsync. now rewrite Hr in Hsync.
    - destruct (frame_empty_registry t s Hsp Hsync (ex_intro _ r Hr)) as (H1 & H2 & H3).
      now apply IH. }
  intros ts. apply H.
  - vm_compute. reflexivity.
  - vm_compute. reflexivity.
  - exists 1%positive. vm_compute. reflexivity.
Qed.

(** ** C6: callbacks after [remove] *)




(** ** C7: [onChange] once per frame *)

(** C7.  In a frame that passes the lag guard, a registered spring that
    meets no rest test in any of the frame's passes is integrated in
    every pass, and then its [onChange] is called, once, with the final
    position: once whatever the number of passes. *)
Theorem onChange_once_per_frame t s r k h :
  wf s -> raf s = Some r -> (k, h) ∈ springs s ->
  (100 <? frameDelta t s)%float = false ->
  let cfg := activeConfig h s in
  let at_pass i := Nat.iter i (integrate cfg (tickDeltaTH t s)) (rt_of h s) in
  (forall i, i < tickSteps t s ->
     exactRest (at_pass i) = false /\ nearRest cfg (at_pass i) = false) ->
  rt_of h (frame t s) = at_pass (tickSteps t s) /\
  eventsOf h (trace (frame t s)) =
    eventsOf h (trace s) ++
    (if onChange (option_ (inst h s))
     then [mkEvent h OnChange (current (at_pass (tickSteps t s)))] else []).
Proof.
  intros W Hr Hin Hlag cfg at_pass Hmoving.
  destruct (frame_spring t s r k h W Hr Hin Hlag) as [Hrt Hev].
  apply subSteps_moving in Hmoving. fold cfg in Hrt, Hev.
  rewrite Hmoving in Hrt, Hev. done.
Qed.

Lemma onChange_once_per_frame_witness :
  tickSteps 1016%float movingState = 96 /\
  eventsOf 0 (trace (frame 1016%float movingState)) =
  eventsOf 0 (trace movingState) ++ [mkEvent 0 OnChange 6.8225828763440735%float].
Proof.
  split; [vm_compute; reflexivity|].
  destruct (onChange_once_per_frame 1016%float movingState 2%positive "7" 0) as [_ Hev].
  - apply reachable_wf.
    exists [Controller (allCallbacks (Some 5%float)) [7%N];
            Start 0 100%float None; Frame 1000%float].
    vm_compute. reflexivity.
  - vm_compute. reflexivity.
  - vm_compute. left.
  - vm_compute. reflexivity.
  - apply subSteps_moving. vm_compute. reflexivity.
  - rewrite Hev. vm_compute. reflexivity.
Defined.

(** In that copy a frame of 16 ms makes 29 sub-steps and calls the
    [onChange] of a moving spring 29 times; the loop of [EasySpring.ts]
    calls it once (C7). *)
Lemma part000_onChange_per_substep :
  iterations (Math.round ((1016 - 1000) / Part000.frameResolution)%float) = 29 /\
  length (trace (Part000.onFrame 1016%float (set_pending [] movingState))) =
  length (trace movingState) + 29.
Proof. split; vm_compute; reflexivity. Qed.

(** ** C8: the lag guard *)

(** C8.  A frame whose [deltaT] exceeds 100 changes no spring and calls
    no callback; it leaves [lastT] at -1, so that the next frame, at any
    finite time, takes its own time as the baseline: its [deltaT] is 0
    and it makes no sub-step. *)
Theorem lag_discard t s :
  (100 <? frameDelta t s)%float = true ->
  let s' := onFrame t s in
  instances s' = instances s /\
  (forall h, rt_of h s' = rt_of h s) /\
  springs s' = springs s /\
  trace s' = trace s /\
  lastT s' = (-1)%float /\
  forall t', is_finite t' = true ->
    frameDelta t' s' = 0%float /\ tickSteps t' s' = 0.
Proof.
  intros Hlag s'. unfold s'. rewrite onFrame_unfold, Hlag.
  do 5 (split; [reflexivity|]).
  intros t' Hfin.
  assert (Hd : frameDelta t' (set_lastT (-1)%float (tickStart t s)) = 0%float).
  { unfold frameDelta. cbn. now apply number_sub_self. }
  split; [exact Hd|].
  unfold tickSteps, tickFactor. rewrite Hd. exact zero_steps.
Qed.

Lemma lag_discard_witness :
  rt_of 0 (onFrame 2000%float movingState) = rt_of 0 movingState /\
  trace (onFrame 2000%float movingState) = trace movingState /\
  frameDelta 2016.5%float (onFrame 2000%float movingState) = 0%float.
Proof.
  destruct (lag_discard 2000%float movingState) as (_ & Hrt & _ & Htrace & _ & Hnext).
  - vm_compute. reflexivity.
  - split; [apply Hrt|]. split; [exact Htrace|]. apply Hnext. vm_compute. reflexivity.
Defined.

(** ** C9: the base configuration is not shared *)

(** C9.  A per-call override does not reach the base configuration:
    after [start(value, override)] the spring's base configuration is
    the same object with the same fields, and the [config] accessor
    gives those fields.  The accessor gives a new object with the fields
    of the base configuration; whatever is done afterwards, and whatever
    the caller then assigns to the fields of that object, the base
    configuration and the configuration in use of every spring keep
    their fields. *)
Theorem config_is_private h s :
  wf s ->
  h < length (instances s) ->
  let base := cfgAt (config (info (inst h s))) s in
  (forall value override,
     let s' := start h value override s in
     config (info (inst h s')) = config (info (inst h s)) /\
     cfgAt (config (info (inst h s'))) s' = base /\
     cfgAt (get_config h s').1 (get_config h s').2 = base) /\
  (let a := (get_config h s).1 in
   let s1 := (get_config h s).2 in
   cfgAt a s1 = base /\
   forall ops s2 f h',
     run ops s1 = Some s2 ->
     h' < length (instances s2) ->
     cfgAt (config (info (inst h' (mutateConfig a f s2)))) (mutateConfig a f s2) =
       cfgAt (config (info (inst h' s2))) s2 /\
     activeConfig h' (mutateConfig a f s2) = activeConfig h' s2).
Proof.
  intros W Hlt base.
  destruct (wf_configs _ W h Hlt) as [Hbase _].
  split.
  - intros value override s'.
    destruct (start_configs h value override s) as [Hcfg Hold].
    unfold s'. rewrite Hcfg. split; [done|].
    split; [now apply Hold|].
    unfold get_config. rewrite cfgAt_alloc_new, spread_empty, Hcfg. now apply Hold.
  - cbn zeta. split.
    + unfold get_config. now rewrite cfgAt_alloc_new, spread_empty.
    + intros ops s2 f h' Hrun Hlt'.
      pose proof (run_unreferenced _ ops _ s2 (get_config_unreferenced h s W) Hrun) as [_ Hun].
      destruct (Hun h' Hlt') as [Hc Hs].
      generalize dependent (get_config h s).1. intros a _ Hc Hs.
      split.
      * change (inst h' (mutateConfig a f s2)) with (inst h' s2).
        now apply cfgAt_mutate_ne.
      * unfold activeConfig.
        change (rt_of h' (mutateConfig a f s2)) with (rt_of h' s2).
        change (inst h' (mutateConfig a f s2)) with (inst h' s2).
        destruct (startConfig (rt_of h' s2)) as [b|] eqn:Hb.
        -- apply cfgAt_mutate_ne. congruence.
        -- now apply cfgAt_mutate_ne.
Qed.

Lemma config_is_private_witness :
  friction (cfgAt (get_config 0 (start 0 7%float
      (Some (mkSpringConfig None None (Some (Some 40%float)) None None None)) movingState)).1
    (get_config 0 (start 0 7%float
      (Some (mkSpringConfig None None (Some (Some 40%float)) None None None)) movingState)).2)
  = Some 26%float /\
  activeConfig 0
    (mutateConfig (get_config 0 movingState).1 (fun c => springDefaultConfig)
       (frame 1016%float (get_config 0 movingState).2)) =
  activeConfig 0 (frame 1016%float (get_config 0 movingState).2).
Proof.
  destruct (config_is_private 0 movingState) as [Hstart [_ Hcopy]].
  - apply reachable_wf.
    exists [Controller (allCallbacks (Some 5%float)) [7%N];
            Start 0 100%float None; Frame 1000%float].
    vm_compute. reflexivity.
  - vm_compute. lia.
  - split.
    + destruct (Hstart 7%float
                  (Some (mkSpringConfig None None (Some (Some 40%float)) None None None)))
        as (_ & _ & ->).
      vm_compute. reflexivity.
    + apply (Hcopy [Frame 1016%float]).
      * reflexivity.
      * vm_compute. lia.
Defined.

(** ** C10: springs that were never started *)

(** C10, as stated, fails.  On the first frame after the loop becomes
    active the spring created at 5 is visited, and its [onChange] is
    called, but it is not integrated and not marked running: that frame
    has no sub-step.  And a spring created within the precision of 0 is
    never integrated: the second frame puts it on 0 and calls [onChange]
    and [onRest]. *)
Lemma first_frame_makes_no_substep :
  rt_of 0 (after (bystanderOps ++ [Frame 1000%float])) =
    mkRuntime 0%float 5%float 0%float false None /\
  eventsOf 0 (trace (after (bystanderOps ++ [Frame 1000%float]))) =
    [mkEvent 0 OnChange 5%float] /\
  rt_of 0 (after [Controller (allCallbacks (Some 0.005%float)) [7%N];
                  Controller (allCallbacks None) [8%N];
                  Start 1 100%float None; Frame 1000%float; Frame 1016%float]) =
    mkRuntime 0%float 0%float 0%float false None.
Proof. repeat split; vm_compute; reflexivity. Qed.

(** C10, amended.  A frame visits every registered spring, whatever its
    [running] flag.  The first frame after [start] has activated the
    idle loop, at any finite time, makes no sub-step: it changes no
    spring and calls the [onChange] of each registered spring.  In a
    frame that passes the lag guard and makes at least one sub-step, a
    registered spring that passes neither rest test, running or not,
    started or not, is integrated and marked running by the first pass,
    and goes on through the passes that are left. *)
Theorem every_registered_spring_is_processed t s k h :
  reachable s ->
  (k, h) ∈ springs s ->
  (raf s = None -> is_finite t = true ->
   forall h0 value override,
     let s1 := start h0 value override s in
     rt_of h (frame t s1) = rt_of h s1 /\
     eventsOf h (trace (frame t s1)) =
       eventsOf h (trace s1) ++
       (if onChange (option_ (inst h s1))
        then [mkEvent h OnChange (current (rt_of h s1))] else [])) /\
  (forall r n,
     raf s = Some r ->
     (100 <? frameDelta t s)%float = false ->
     tickSteps t s = S n ->
     exactRest (rt_of h s) = false ->
     nearRest (activeConfig h s) (rt_of h s) = false ->
     let rt1 := integrate (activeConfig h s) (tickDeltaTH t s) (rt_of h s) in
     let res := subSteps n (activeConfig h s) (tickDeltaTH t s) rt1 in
     running rt1 = true /\
     rt_of h (frame t s) = res.1 /\
     eventsOf h (trace (frame t s)) =
       eventsOf h (trace s) ++ callbacksOf (option_ (inst h s)) h res).
Proof.
  intros Hreach Hin. pose proof (reachable_wf _ Hreach) as W. split.
  - intros Hidle Hfin h0 value override s1.
    destruct (start_active h0 value override s) as [r Hr].
    apply (baseline_frame t s1 r k h).
    + now apply wf_start.
    + exact Hr.
    + unfold s1. rewrite start_lastT. exact (reachable_baseline _ Hreach Hidle).
    + exact Hfin.
    + unfold s1. now rewrite (proj1 (start_frame h0 value override s)).
  - intros r n Hr Hlag Hsteps Hexact Hnear rt1 res.
    split; [reflexivity|].
    destruct (frame_spring t s r k h W Hr Hin Hlag) as [Hrt Hev].
    rewrite Hsteps in Hrt, Hev. cbn [subSteps] in Hrt, Hev.
    rewrite Hexact, Hnear in Hrt, Hev. split; [exact Hrt | exact Hev].
Qed.

Lemma every_registered_spring_is_processed_witness :
  running (rt_of 0 (frame 1000%float (start 1 100%float None twoSprings))) = false /\
  running (rt_of 0 (frame 1016%float (after (bystanderOps ++ [Frame 1000%float])))) = true.
Proof.
  split.
  - destruct (every_registered_spring_is_processed 1000%float twoSprings "7" 0)
      as [Hfirst _].
    + exists [Controller (allCallbacks (Some 5%float)) [7%N];
              Controller (allCallbacks None) [8%N]].
      vm_compute. reflexivity.
    + vm_compute. left.
    + assert (Hidle : raf twoSprings = None) by (vm_compute; reflexivity).
      assert (Hfin : is_finite 1000%float = true) by (vm_compute; reflexivity).
      destruct (Hfirst Hidle Hfin 1 100%float None) as [Hrt _].
      rewrite Hrt. vm_compute. reflexivity.
  - destruct (every_registered_spring_is_processed 1016%float
                (after (bystanderOps ++ [Frame 1000%float])) "7" 0) as [_ Hlater].
    + exists (bystanderOps ++ [Frame 1000%float]). vm_compute. reflexivity.
    + vm_compute. left.
    + destruct (Hlater 2%positive 95) as (_ & Hrt & _).
      * vm_compute. reflexivity.
      * vm_compute. reflexivity.
      * vm_compute. reflexivity.
      * vm_compute. reflexivity.
      * vm_compute. reflexivity.
      * rewrite Hrt. vm_compute. reflexivity.
Defined.

(** * More of the program *)

(** ** [generateId] *)

Lemma keyOf_inj d1 d2 : keyOf d1 = keyOf d2 -> d1 = d2.
Proof.
  unfold keyOf. intros Heq.
  assert (Hnn : forall n, N.to_uint n <> Decimal.Nil).
  { intros [|q]; cbn; [discriminate | apply DecimalPos.Unsigned.to_uint_nonnil]. }
  apply DecimalN.Unsigned.to_uint_inj.
  pose proof (NilZero.usu _ (Hnn d1)) as H1.
  pose proof (NilZero.usu _ (Hnn d2)) as H2.
  rewrite Heq in H1. congruence.
Qed.

Lemma generateId_None existingKeys draws :
  generateId existingKeys draws = None ->
  Forall (fun x => keyOf x ∈ existingKeys) draws.
Proof.
  induction draws as [|d rest IH]; cbn [generateId]; [constructor|].
  destruct (decide (keyOf d ∈ existingKeys)); [|discriminate].
  intros Hnone. constructor; [done | now apply IH].
Qed.

(** [generateId] gives the key of the first draw whose key is not an
    existing key, so never an existing key; while every draw collides
    it goes on.  Different integers give different keys. *)
Theorem generateId_first_fresh existingKeys draws :
  match generateId existingKeys draws with
  | Some k =>
      (k ∉ existingKeys) /\
      exists collided d rest,
        draws = collided ++ d :: rest /\ k = keyOf d /\
        Forall (fun x => keyOf x ∈ existingKeys) collided
  | None => Forall (fun x => keyOf x ∈ existingKeys) draws
  end /\
  (forall d1 d2, keyOf d1 = keyOf d2 -> d1 = d2).
Proof.
  split; [|apply keyOf_inj].
  induction draws as [|d rest IH]; cbn [generateId]; [constructor|].
  destruct (decide (keyOf d ∈ existingKeys)) as [Hin|Hnot].
  - destruct (generateId existingKeys rest) as [k|].
    + destruct IH as (Hk & collided & d' & rest' & -> & -> & Hall).
      split; [done|]. exists (d :: collided), d', rest'.
      split; [done|]. split; [done|]. now constructor.
    + now constructor.
  - split; [done|]. exists [], d, rest. now repeat split.
Qed.

(** ** [controller(option)] *)

(** [controller(option)] registers, under a new key and after the
    entries that exist, a spring with [goal] 0, [current] at
    [option.value ?? 0], no velocity and not running, whose configuration
    is the object spread of the defaults and [option.config]: a property
    that [option.config] has wins, also one that holds [undefined], and
    any other field is the default.  It calls no callback, leaves the
    frame loop as it is and changes no other spring.  It does not return
    while every draw collides. *)
Theorem controller_creates opt draws s :
  match controller opt draws s with
  | Some (h, s') =>
      h = length (instances s) /\
      (exists k, (k ∉ (springs s).*1) /\ springs s' = springs s ++ [(k, h)] /\
                 id (inst h s') = k) /\
      rt_of h s' = mkRuntime 0%float (default 0%float (opt_value opt)) 0%float false None /\
      option_ (inst h s') = opt /\
      activeConfig h s' = spread springDefaultConfig (default emptyConfig (opt_config opt)) /\
      (forall h', h' < length (instances s) -> inst h' s' = inst h' s) /\
      (forall a, a < length (configs s) -> cfgAt a s' = cfgAt a s) /\
      raf s' = raf s /\ lastT s' = lastT s /\ pending s' = pending s /\ trace s' = trace s
  | None => Forall (fun d => keyOf d ∈ (springs s).*1) draws
  end.
Proof.
  destruct (controller opt draws s) as [[h s']|] eqn:Hc.
  - apply controller_Some in Hc
      as (k & Hk & -> & Hsp & Hin & Hcf & Hraf & HlastT & Hp & _ & Htr).
    assert (Hnew : inst (length (instances s)) s' =
                   mkInstance k opt
                     (mkSpringInfo
                        (mkRuntime 0%float (default 0%float (opt_value opt)) 0%float false None)
                        (length (configs s)))).
    { unfold inst. rewrite Hin, lookup_app_r by lia. now rewrite Nat.sub_diag. }
    split; [done|]. split; [exists k; now rewrite Hnew|].
    unfold activeConfig, rt_of. rewrite Hnew. cbn.
    do 2 (split; [done|]). split.
    { unfold cfgAt. rewrite Hcf, lookup_app_r by lia. now rewrite Nat.sub_diag. }
    split.
    { intros h' Hlt. unfold inst. now rewrite Hin, lookup_app_l. }
    split; [|done].
    intros a Ha. unfold cfgAt. now rewrite Hcf, lookup_app_l.
  - unfold controller in Hc. apply generateId_None.
    now destruct (generateId (springs s).*1 draws).
Qed.

(** ** What every run keeps *)

(** In every state that calls of the library and frames of the platform
    lead to: no key and no closure is registered twice, an entry's key is
    the [id] its closure holds, at most one frame request is pending and
    it is the one in [info.raf], and [info.lastT] is -1 while the loop is
    idle. *)
Theorem reachable_invariants s :
  reachable s ->
  NoDup (springs s).*1 /\ NoDup (springs s).*2 /\
  (forall k h, (k, h) ∈ springs s -> h < length (instances s) /\ id (inst h s) = k) /\
  pending s = match raf s with Some r => [r] | None => [] end /\
  (raf s = None -> lastT s = (-1)%float).
Proof.
  intros Hr. pose proof (reachable_wf _ Hr) as [H1 H2 H3 _ H5].
  do 4 (split; [assumption|]). exact (reachable_baseline _ Hr).
Qed.

Lemma reachable_invariants_witness :
  NoDup (springs movingState).*1 /\ NoDup (springs movingState).*2 /\
  (forall k h, (k, h) ∈ springs movingState ->
     h < length (instances movingState) /\ id (inst h movingState) = k) /\
  pending movingState = match raf movingState with Some r => [r] | None => [] end /\
  (raf movingState = None -> lastT movingState = (-1)%float).
Proof.
  apply (reachable_invariants movingState).
  exists [Controller (allCallbacks (Some 5%float)) [7%N];
          Start 0 100%float None; Frame 1000%float].
  vm_compute. reflexivity.
Defined.

(** ** [stopAnimationFrame] and [checkIdle] *)

Lemma pending_stop s : synced s -> pending (stopAnimationFrame s) = [].
Proof.
  unfold synced, stopAnimationFrame, cancelAnimationFrame. intros Hs.
  destruct (raf s) as [r|] eqn:Hr; cbn; rewrite Hs; [|done].
  now rewrite filter_cons_False by (intros H; now apply H).
Qed.

(** [stopAnimationFrame()] cancels the pending request: afterwards the
    loop is idle, nothing is pending, a frame of the platform finds
    nothing to run, and a second call changes nothing.  The springs, the
    configurations and the callbacks called so far are as before. *)
Theorem stopAnimationFrame_cancels s :
  synced s ->
  let s' := stopAnimationFrame s in
  raf s' = None /\ pending s' = [] /\ lastT s' = (-1)%float /\
  (forall t, frame t s' = s') /\
  stopAnimationFrame s' = s' /\
  springs s' = springs s /\ instances s' = instances s /\
  configs s' = configs s /\ trace s' = trace s.
Proof.
  intros Hs s'. pose proof (pending_stop s Hs) as Hp. fold s' in Hp.
  split; [apply raf_stop|]. split; [exact Hp|]. split; [reflexivity|].
  split; [intros t; unfold frame; now rewrite Hp|].
  split.
  - unfold s', stopAnimationFrame.
    destruct (raf s) eqn:Hr; cbn; rewrite ?Hr; reflexivity.
  - unfold s', stopAnimationFrame. now destruct (raf s).
Qed.

Lemma stopAnimationFrame_cancels_witness :
  raf (stopAnimationFrame movingState) = None /\
  pending (stopAnimationFrame movingState) = [].
Proof.
  destruct (stopAnimationFrame_cancels movingState) as (H1 & H2 & _).
  - vm_compute. reflexivity.
  - split; [exact H1 | exact H2].
Defined.

(** [checkIdle()] looks at the registered springs only.  With a
    registered spring that is running it changes nothing; with none it
    is [stopAnimationFrame()].  A running spring that the registry does
    not hold does not keep the loop alive. *)
Theorem checkIdle_registered_only s :
  (checkIdle s = s /\
   exists k h, (k, h) ∈ springs s /\ running (rt_of h s) = true) \/
  (checkIdle s = stopAnimationFrame s /\
   forall k h, (k, h) ∈ springs s -> running (rt_of h s) = false).
Proof.
  destruct (existsb (fun e => running (rt_of e.2 s)) (springs s)) eqn:He.
  - left. apply existsb_exists in He as ([k h] & Hin & Hrun).
    apply list_elem_of_In in Hin. cbn in Hrun.
    split; [now apply (checkIdle_running s k h) | now exists k, h].
  - right.
    assert (Hall : forall k h, (k, h) ∈ springs s -> running (rt_of h s) = false).
    { intros k h Hin. apply list_elem_of_In in Hin.
      destruct (running (rt_of h s)) eqn:Hrun; [|done].
      assert (existsb (fun e => running (rt_of e.2 s)) (springs s) = true); [|congruence].
      apply existsb_exists. now exists (k, h). }
    split; [now apply checkIdle_idle | exact Hall].
Qed.

(** ** Only [start] activates the frame loop *)

Lemma raf_checkIdle_idle s : raf s = None -> raf (checkIdle s) = None.
Proof.
  unfold checkIdle. intros H.
  destruct (fold_left _ _ _); [done | apply raf_stop].
Qed.

Lemma step_idle s o s' :
  wf s -> raf s = None -> isStart o = false -> step s o = Some s' -> raf s' = None.
Proof.
  intros W Hr Hs Hst. destruct o; cbn [step isStart] in *; try discriminate.
  - destruct (controller opt draws s) as [[h s1]|] eqn:Hc; cbn in Hst; [|discriminate].
    injection Hst as <-.
    apply controller_Some in Hc as (k & _ & _ & _ & _ & _ & Hraf & _). congruence.
  - injection Hst as <-. unfold set. apply raf_checkIdle_idle.
    destruct (negb _); [rewrite raf_fire|]; exact Hr.
  - injection Hst as <-. exact Hr.
  - injection Hst as <-. exact Hr.
  - injection Hst as <-. exact Hr.
  - injection Hst as <-. unfold frame. now rewrite (wf_pending _ W), Hr.
Qed.

(** While the loop is idle, no call other than [start] and no frame of
    the platform makes it active: creating, setting, removing springs and
    reading a configuration request no frame. *)
Theorem only_start_activates ops s s' :
  wf s -> raf s = None ->
  forallb (fun o => negb (isStart o)) ops = true ->
  run ops s = Some s' ->
  raf s' = None /\ pending s' = [].
Proof.
  revert s. induction ops as [|o ops IH]; intros s W Hr Hall Hrun.
  - injection Hrun as <-. split; [exact Hr|]. now rewrite (wf_pending _ W), Hr.
  - cbn in Hall. apply andb_prop in Hall as [Ho Hall].
    cbn [run] in Hrun. destruct (step s o) as [s1|] eqn:Hst; [|discriminate].
    apply (IH s1); [now apply (wf_step s o) | | exact Hall | exact Hrun].
    apply (step_idle s o); [exact W | exact Hr | | exact Hst].
    now apply negb_true_iff in Ho.
Qed.

Lemma only_start_activates_witness :
  raf (after [Controller (allCallbacks (Some 5%float)) [7%N];
              Controller (allCallbacks None) [8%N];
              Set_ 0 3%float; Frame 1000%float; Remove 1; GetConfig 0]) = None.
Proof.
  refine (proj1 (only_start_activates
            [Set_ 0 3%float; Frame 1000%float; Remove 1; GetConfig 0]
            twoSprings _ _ _ _ _)).
  - apply reachable_wf.
    exists [Controller (allCallbacks (Some 5%float)) [7%N];
            Controller (allCallbacks None) [8%N]].
    vm_compute. reflexivity.
  - vm_compute. reflexivity.
  - vm_compute. reflexivity.
  - vm_compute. reflexivity.
Defined.

(** ** [remove] *)

Lemma filter_agree {A} (P Q : A -> Prop)
    `{!forall x, Decision (P x)} `{!forall x, Decision (Q x)} (l : list A) :
  (forall x, x ∈ l -> P x <-> Q x) -> filter P l = filter Q l.
Proof.
  induction l as [|x l IH]; intros Hall; [done|].
  rewrite !filter_cons.
  assert (Hx : P x <-> Q x) by (apply Hall; left).
  rewrite IH by (intros y Hy; apply Hall; now right).
  destruct (decide (P x)), (decide (Q x)); try done; tauto.
Qed.

Lemma key_unique (m : list (string * nat)) k h h' :
  NoDup m.*1 -> (k, h) ∈ m -> (k, h') ∈ m -> h = h'.
Proof.
  induction m as [|[k0 h0] m IH]; cbn; intros Hnd H1 H2.
  - now apply elem_of_nil in H1.
  - apply NoDup_cons in Hnd as [Hk Hnd].
    apply elem_of_cons in H1 as [H1|H1]; apply elem_of_cons in H2 as [H2|H2].
    + congruence.
    + injection H1 as -> ->. exfalso. apply Hk.
      apply list_elem_of_fmap. now exists (k0, h').
    + injection H2 as -> ->. exfalso. apply Hk.
      apply list_elem_of_fmap. now exists (k0, h).
    + now apply IH.
Qed.

Lemma mapDelete_fresh k (m : list (string * nat)) : k ∉ m.*1 -> mapDelete k m = m.
Proof.
  unfold mapDelete. induction m as [|e m IH]; intros Hk; [done|].
  rewrite fmap_cons in Hk. apply not_elem_of_cons in Hk as [Hne Hk].
  rewrite filter_cons_True by (cbn; congruence). now rewrite IH.
Qed.

Lemma mapDelete_idemp k (m : list (string * nat)) :
  mapDelete k (mapDelete k m) = mapDelete k m.
Proof.
  apply mapDelete_fresh. intros Hin.
  apply list_elem_of_fmap in Hin as (e & -> & Hin).
  now apply list_elem_of_filter in Hin as [Hne _].
Qed.

(** [remove()] on the controller of a registered spring takes that
    spring, and no other, out of the registry; the order of the others
    is kept.  When no registered spring has the controller's key, as
    after a first [remove()], the call changes nothing.  [remove()] never
    touches the loop, a runtime, a configuration or a callback: a spring
    that is removed while it runs leaves the loop as it is. *)
Theorem remove_unregisters h s :
  wf s ->
  let s' := remove h s in
  (h ∈ (springs s).*2 -> springs s' = filter (fun e => e.2 ≠ h) (springs s)) /\
  (id (inst h s) ∉ (springs s).*1 -> s' = s) /\
  remove h s' = s' /\
  raf s' = raf s /\ pending s' = pending s /\ lastT s' = lastT s /\
  instances s' = instances s /\ configs s' = configs s /\ trace s' = trace s.
Proof.
  intros W s'. split; [|split; [|split; [|done]]].
  - intros Hin. apply list_elem_of_fmap in Hin as ([k h0] & Hh & Hin).
    cbn in Hh. subst h0.
    destruct (wf_entries _ W k h Hin) as [_ Hid].
    unfold s', remove, mapDelete. cbn [springs set_springs]. rewrite Hid.
    apply filter_agree. intros [k' h'] Hin'. cbn. split.
    + intros Hk ->. apply Hk. now destruct (wf_entries _ W k' h Hin') as [_ <-].
    + intros Hh ->. apply Hh. exact (key_unique _ _ _ _ (wf_keys _ W) Hin' Hin).
  - intros Hfresh. unfold s', remove. rewrite (mapDelete_fresh _ _ Hfresh).
    now destruct s.
  - unfold s'. unfold remove at 1.
    change (id (inst h (remove h s))) with (id (inst h s)).
    change (springs (remove h s)) with (mapDelete (id (inst h s)) (springs s)).
    now rewrite mapDelete_idemp.
Qed.

Lemma remove_unregisters_witness :
  springs (remove 0 twoSprings) = [("8"%string, 1)] /\
  remove 0 (remove 0 twoSprings) = remove 0 twoSprings.
Proof.
  destruct (remove_unregisters 0 twoSprings) as (H1 & _ & H3 & _).
  - apply reachable_wf.
    exists [Controller (allCallbacks (Some 5%float)) [7%N];
            Controller (allCallbacks None) [8%N]].
    vm_compute. reflexivity.
  - split; [|exact H3]. rewrite H1; [vm_compute; reflexivity|].
    vm_compute. left.
Defined.

(** ** What a call changes *)

Lemma rt_of_startAnimationFrame h s : rt_of h (startAnimationFrame s) = rt_of h s.
Proof. unfold rt_of. now rewrite inst_startAnimationFrame. Qed.

Lemma start_others h value override s h' :
  h' <> h -> rt_of h' (start h value override s) = rt_of h' s.
Proof.
  intros Hne. rewrite start_unfold. cbn zeta.
  rewrite rt_of_startAnimationFrame, rt_of_fire, !rt_of_updRuntime_ne by done.
  change (rt_of h' (updRuntime h (setRunning true)
            (updRuntime h
               (fun rt => mkRuntime value (current rt) (v rt) (running rt) (startConfig rt)) s))
          = rt_of h' s).
  now rewrite !rt_of_updRuntime_ne.
Qed.

Lemma set_others h value s h' : h' <> h -> rt_of h' (set h value s) = rt_of h' s.
Proof.
  intros Hne. unfold set. cbn zeta. rewrite rt_of_checkIdle.
  destruct (negb _); [rewrite rt_of_fire|]; now rewrite rt_of_updRuntime_ne.
Qed.

Lemma rt_of_set h value s :
  h < length (instances s) ->
  rt_of h (set h value s) = mkRuntime value value 0%float false (startConfig (rt_of h s)).
Proof.
  intros Hlt. unfold set. cbn zeta. rewrite rt_of_checkIdle.
  destruct (negb _); [rewrite rt_of_fire|]; now rewrite rt_of_updRuntime.
Qed.

(** The runtime of a spring, the configuration its loop uses and the
    callbacks called for it are changed by [start] and [set] on its own
    controller and by frames, and by nothing else: not by a call on
    another controller, not by creating a spring, not by [remove] (not
    even its own), [pause] or reading a configuration. *)
Theorem calls_are_local s o s' h :
  wf s -> h < length (instances s) ->
  callsOn h o = false -> (forall t, o <> Frame t) ->
  step s o = Some s' ->
  rt_of h s' = rt_of h s /\
  activeConfig h s' = activeConfig h s /\
  eventsOf h (trace s') = eventsOf h (trace s).
Proof.
  intros W Hlt Hcall Hnf Hstep.
  destruct (wf_configs _ W h Hlt) as [Hc Hsc].
  assert (Hgrow : forall s1,
            inst h s1 = inst h s ->
            (forall a, a < length (configs s) -> cfgAt a s1 = cfgAt a s) ->
            activeConfig h s1 = activeConfig h s).
  { intros s1 Hi Ha. unfold activeConfig, rt_of. rewrite Hi. fold (rt_of h s).
    destruct (startConfig (rt_of h s)) as [a|] eqn:Hsa; [apply Ha; now apply Hsc | now apply Ha]. }
  destruct o; cbn [step callsOn] in *.
  - destruct (controller opt draws s) as [[h0 s1]|] eqn:Hctl; cbn in Hstep; [|discriminate].
    injection Hstep as <-.
    apply controller_Some in Hctl as (k & _ & _ & _ & Hin & Hcf & _ & _ & _ & _ & Htr).
    assert (Hi : inst h s1 = inst h s) by (unfold inst; now rewrite Hin, lookup_app_l).
    split; [unfold rt_of; now rewrite Hi|]. split; [|now rewrite Htr].
    apply Hgrow; [exact Hi|].
    intros a Ha. unfold cfgAt. now rewrite Hcf, lookup_app_l.
  - injection Hstep as <-. apply bool_decide_eq_false in Hcall.
    assert (Hne : h <> h0) by congruence.
    split; [now apply start_others|]. split; [|now apply start_frame].
    destruct (start_configs h0 value config0 s) as [Hcfg Hat].
    unfold activeConfig. rewrite (start_others _ _ _ _ _ Hne), Hcfg.
    destruct (startConfig (rt_of h s)) as [a|] eqn:Hsa; [apply Hat; now apply Hsc | now apply Hat].
  - injection Hstep as <-. apply bool_decide_eq_false in Hcall.
    assert (Hne : h <> h0) by congruence.
    split; [now apply set_others|].
    split; [apply activeConfig_sameStatic, set_sameStatic | now apply set_frame].
  - now injection Hstep as <-.
  - now injection Hstep as <-.
  - injection Hstep as <-. split; [done|]. split; [|done].
    apply Hgrow; [done|]. intros a Ha. now apply cfgAt_alloc.
  - now destruct (Hnf t).
Qed.

Lemma calls_are_local_witness :
  rt_of 0 (start 1 100%float None twoSprings) = rt_of 0 twoSprings.
Proof.
  refine (proj1 (calls_are_local twoSprings (Start 1 100%float None) _ 0 _ _ _ _ eq_refl)).
  - apply reachable_wf.
    exists [Controller (allCallbacks (Some 5%float)) [7%N];
            Controller (allCallbacks None) [8%N]].
    vm_compute. reflexivity.
  - vm_compute. lia.
  - vm_compute. reflexivity.
  - intros t. discriminate.
Defined.

(** ** What frames keep *)

Lemma goal_updRuntime h h' f s :
  (forall rt, goal (f rt) = goal rt) ->
  goal (rt_of h' (updRuntime h f s)) = goal (rt_of h' s).
Proof.
  intros Hf. destruct (rt_of_updRuntime_cases h h' f s) as [->|[-> ->]]; [done | apply Hf].
Qed.

Lemma goal_forLoop n deltaTH config opt h s h' :
  goal (rt_of h' (forLoop n deltaTH config opt h s)) = goal (rt_of h' s).
Proof.
  revert s. induction n as [|n IH]; intros s; cbn [forLoop].
  - now rewrite rt_of_fire.
  - destruct (exactRest (rt_of h s)).
    + destruct (running (rt_of h s)); [|done].
      now rewrite rt_of_checkIdle, goal_updRuntime, rt_of_fire.
    + destruct (nearRest config (rt_of h s)).
      * now rewrite rt_of_checkIdle, goal_updRuntime, !rt_of_fire, goal_updRuntime.
      * now rewrite IH, goal_updRuntime.
Qed.

Lemma goal_fold deltaT factor l s h :
  goal (rt_of h (fold_left (processSpring deltaT factor) l s)) = goal (rt_of h s).
Proof.
  revert s. induction l as [|e l IH]; intros s; cbn [fold_left]; [done|].
  rewrite IH. apply goal_forLoop.
Qed.

Lemma goal_frame t s h : goal (rt_of h (frame t s)) = goal (rt_of h s).
Proof.
  unfold frame. destruct (pending s) as [|r rest]; [done|].
  rewrite onFrame_unfold. destruct (100 <? _)%float; [done|].
  now rewrite goal_fold.
Qed.

Lemma frame_unregistered t s h :
  h ∉ (springs s).*2 -> rt_of h (frame t s) = rt_of h s.
Proof.
  intros Hnot. unfold frame. destruct (pending s) as [|r rest]; [done|].
  rewrite onFrame_unfold. set (s0 := set_pending rest s).
  destruct (100 <? _)%float; [done|].
  now destruct (fold_others (frameDelta t s0) (tickFactor t s0) (springs s0) (tickStart t s0) h
                  Hnot) as [-> _].
Qed.

Lemma frames_sameStatic ts s : sameStatic s (frames ts s).
Proof.
  revert s. induction ts as [|t ts IH]; intros s; [apply sameStatic_refl|].
  eapply sameStatic_trans; [apply (frame_sameStatic t) | apply IH].
Qed.

(** Frames, however many, change no goal: a goal is what the last
    [start] or [set] made it (0 before the first).  They keep the
    registry, every configuration object and the configuration each
    spring's loop uses, and leave the runtime of a spring that is not
    registered as it is. *)
Theorem frames_keep_goals ts s h :
  goal (rt_of h (frames ts s)) = goal (rt_of h s) /\
  springs (frames ts s) = springs s /\
  configs (frames ts s) = configs s /\
  activeConfig h (frames ts s) = activeConfig h s /\
  (h ∉ (springs s).*2 -> rt_of h (frames ts s) = rt_of h s).
Proof.
  pose proof (frames_sameStatic ts s) as Hst.
  split; [|split; [apply Hst|split; [apply Hst|split; [now apply activeConfig_sameStatic|]]]].
  - revert s Hst. induction ts as [|t ts IH]; intros s _; [done|].
    cbn [frames fold_left]. fold (frames ts (frame t s)).
    rewrite IH by apply frames_sameStatic. apply goal_frame.
  - clear Hst. revert s. induction ts as [|t ts IH]; intros s Hnot; [done|].
    cbn [frames fold_left]. fold (frames ts (frame t s)).
    rewrite IH by now rewrite (ss_springs _ _ (frame_sameStatic t s)).
    now apply frame_unregistered.
Qed.

(** ** A spring at rest *)

Lemma frame_resting t s k h :
  wf s -> (k, h) ∈ springs s ->
  exactRest (rt_of h s) = true -> running (rt_of h s) = false ->
  rt_of h (frame t s) = rt_of h s /\
  exists evs,
    eventsOf h (trace (frame t s)) = eventsOf h (trace s) ++ evs /\
    Forall (fun e => e = mkEvent h OnChange (current (rt_of h s))) evs.
Proof.
  intros W Hin Hex Hrun.
  destruct (raf s) as [r|] eqn:Hr.
  2: { unfold frame. rewrite (wf_pending _ W), Hr. split; [done|].
       exists []. now rewrite app_nil_r. }
  destruct (100 <? frameDelta t s)%float eqn:Hlag.
  - unfold frame. rewrite (wf_pending _ W), Hr, onFrame_unfold.
    change (frameDelta t (set_pending [] s)) with (frameDelta t s). rewrite Hlag.
    split; [done|]. exists []. now rewrite app_nil_r.
  - destruct (frame_spring t s r k h W Hr Hin Hlag) as [Hrt Hev].
    destruct (tickSteps t s) as [|n]; cbn [subSteps] in Hrt, Hev.
    + split; [exact Hrt|]. eexists. split; [exact Hev|].
      unfold callbacksOf. cbn. destruct (onChange _); repeat constructor.
    + rewrite Hex, Hrun in Hrt, Hev. split; [exact Hrt|].
      exists []. split; [exact Hev | constructor].
Qed.

Lemma frames_resting ts s k h :
  wf s -> (k, h) ∈ springs s ->
  exactRest (rt_of h s) = true -> running (rt_of h s) = false ->
  rt_of h (frames ts s) = rt_of h s.
Proof.
  revert s. induction ts as [|t ts IH]; intros s W Hin Hex Hrun; [done|].
  cbn [frames fold_left]. fold (frames ts (frame t s)).
  destruct (frame_resting t s k h W Hin Hex Hrun) as [Hrt _].
  rewrite IH; [exact Hrt | now apply wf_frame | | now rewrite Hrt..].
  now rewrite (ss_springs _ _ (frame_sameStatic t s)).
Qed.

(** A registered spring that is at its goal, without velocity and not
    running, is not moved by frames, however many and whatever their
    times: no rounding error accumulates.  Its [onRest] is not called;
    the only callback that frames call for it is [onChange], with the
    value it has (in the frames that make no sub-step). *)
Theorem rest_is_stable ts s k h :
  wf s -> (k, h) ∈ springs s ->
  exactRest (rt_of h s) = true -> running (rt_of h s) = false ->
  rt_of h (frames ts s) = rt_of h s /\
  exists evs,
    eventsOf h (trace (frames ts s)) = eventsOf h (trace s) ++ evs /\
    Forall (fun e => e = mkEvent h OnChange (current (rt_of h s))) evs.
Proof.
  revert s. induction ts as [|t ts IH]; intros s W Hin Hex Hrun.
  - split; [done|]. exists []. now rewrite app_nil_r.
  - cbn [frames fold_left]. fold (frames ts (frame t s)).
    destruct (frame_resting t s k h W Hin Hex Hrun) as (Hrt & evs1 & Hev1 & Hall1).
    destruct (IH (frame t s)) as (Hrt2 & evs2 & Hev2 & Hall2).
    + now apply wf_frame.
    + now rewrite (ss_springs _ _ (frame_sameStatic t s)).
    + now rewrite Hrt.
    + now rewrite Hrt.
    + split; [now rewrite Hrt2|].
      exists (evs1 ++ evs2). split; [now rewrite Hev2, Hev1, app_assoc|].
      apply Forall_app. split; [exact Hall1 | now rewrite <- Hrt].
Qed.

Lemma rest_is_stable_witness :
  rt_of 0 (frames [1016%float; 1032%float] idleLoopState) = rt_of 0 idleLoopState.
Proof.
  refine (proj1 (rest_is_stable [1016%float; 1032%float] idleLoopState "7" 0 _ _ _ _)).
  - apply reachable_wf.
    exists [Controller (allCallbacks None) [7%N]; Controller (allCallbacks None) [8%N];
            Start 1 1%float None; Remove 1; Frame 1000%float].
    vm_compute. reflexivity.
  - vm_compute. left.
  - vm_compute. reflexivity.
  - vm_compute. reflexivity.
Defined.

(** [set(value)] with a finite value holds through the frames that
    follow: the spring shows [value] as its [current] and its [goal] and
    is not running, whatever it was doing before the call. *)
Theorem set_holds_through_frames h k value ts s :
  wf s -> (k, h) ∈ springs s -> is_finite value = true ->
  let s' := frames ts (set h value s) in
  get_current h s' = value /\ get_goal h s' = value /\
  v (rt_of h s') = 0%float /\ running (rt_of h s') = false.
Proof.
  intros W Hin Hfin s'.
  assert (Hlt : h < length (instances s)) by now apply (wf_entries _ W k h).
  pose proof (rt_of_set h value s Hlt) as Hset.
  assert (Hrt : rt_of h (frames ts (set h value s)) = rt_of h (set h value s)).
  { apply (frames_resting ts (set h value s) k h).
    - now apply wf_set.
    - now rewrite (proj1 (set_frame h value s)).
    - rewrite Hset. unfold exactRest. cbn [goal current v].
      now rewrite (number_sub_self _ Hfin).
    - now rewrite Hset. }
  unfold get_current, get_goal, s'. now rewrite Hrt, Hset.
Qed.

Lemma set_holds_through_frames_witness :
  get_current 0 (frames [1016%float; 1032%float] (set 0 42%float movingState)) = 42%float.
Proof.
  refine (proj1 (set_holds_through_frames 0 "7" 42%float [1016%float; 1032%float]
                   movingState _ _ _)).
  - apply reachable_wf.
    exists [Controller (allCallbacks (Some 5%float)) [7%N];
            Start 0 100%float None; Frame 1000%float].
    vm_compute. reflexivity.
  - vm_compute. left.
  - vm_compute. reflexivity.
Defined.

(** ** The idle check in the middle of a frame *)

Lemma raf_forLoop_idle n deltaTH config opt h s :
  raf s = None -> raf (forLoop n deltaTH config opt h s) = None.
Proof.
  revert s. induction n as [|n IH]; intros s Hr; cbn [forLoop].
  - now rewrite raf_fire.
  - destruct (exactRest (rt_of h s)).
    + destruct (running (rt_of h s)); [|done].
      apply raf_checkIdle_idle. cbn. now rewrite raf_fire.
    + destruct (nearRest config (rt_of h s)).
      * apply raf_checkIdle_idle. cbn. now rewrite !raf_fire.
      * now apply IH.
Qed.

Lemma raf_fold_idle deltaT factor l s :
  raf s = None -> raf (fold_left (processSpring deltaT factor) l s) = None.
Proof.
  revert s. induction l as [|e l IH]; intros s Hr; cbn [fold_left]; [done|].
  apply IH. now apply raf_forLoop_idle.
Qed.

(** The loop of a spring that comes to rest while no other registered
    spring is running stops the frame loop. *)
Lemma forLoop_stops n deltaTH config opt h s :
  h < length (instances s) ->
  (forall k h', (k, h') ∈ springs s -> h' <> h -> running (rt_of h' s) = false) ->
  (subSteps n config deltaTH (rt_of h s)).2 = RestedNear \/
  (subSteps n config deltaTH (rt_of h s)).2 = RestedExact true ->
  raf (forLoop n deltaTH config opt h s) = None.
Proof.
  revert s. induction n as [|n IH]; intros s Hlt Hothers Hout; cbn [forLoop subSteps] in *.
  - now destruct Hout.
  - assert (Hidle : forall s0,
              springs s0 = springs s ->
              length (instances s0) = length (instances s) ->
              (forall h', h' <> h -> rt_of h' s0 = rt_of h' s) ->
              raf (checkIdle (updRuntime h (setRunning false) s0)) = None).
    { intros s0 Hsp Hlen Hrt. rewrite checkIdle_idle; [apply raf_stop|].
      intros k h' Hin. destruct (decide (h' = h)) as [->|Hne].
      - now rewrite rt_of_updRuntime by lia.
      - rewrite rt_of_updRuntime_ne, Hrt by done.
        apply (Hothers k); [|done]. now rewrite <- Hsp. }
    destruct (exactRest (rt_of h s)).
    + destruct (running (rt_of h s)).
      * apply Hidle; [apply springs_fire | now rewrite instances_fire | ].
        intros h' _. apply rt_of_fire.
      * cbn in Hout. now destruct Hout.
    + destruct (nearRest config (rt_of h s)).
      * apply Hidle.
        -- now rewrite !springs_fire.
        -- now rewrite !instances_fire, updRuntime_length.
        -- intros h' Hne. now rewrite !rt_of_fire, rt_of_updRuntime_ne.
      * apply IH.
        -- now rewrite updRuntime_length.
        -- intros k h' Hin Hne. rewrite rt_of_updRuntime_ne by done. now apply (Hothers k).
        -- now rewrite rt_of_updRuntime.
Qed.

Lemma frames_idle ts s : pending s = [] -> frames ts s = s.
Proof.
  intros Hp. induction ts as [|t ts IH]; [done|].
  cbn [frames fold_left]. unfold frame at 2. rewrite Hp. exact IH.
Qed.

(** The idle check is made in the middle of a frame, with the springs
    that come later in the registry not yet visited.  When the first
    registered spring comes to rest in a frame and no other registered
    spring is marked as running at that moment, the loop is stopped;
    the frame goes on all the same, and a spring that comes later and is
    away from its goal (created away from 0 and never started) is moved
    on by the frame's sub-steps and marked as running.  No frame follows:
    that spring stays where the frame left it, running, short of its
    goal. *)
Theorem idle_check_strands_later_spring t s r kA hA rest kB hB :
  wf s -> raf s = Some r ->
  springs s = (kA, hA) :: rest -> (kB, hB) ∈ rest ->
  (100 <? frameDelta t s)%float = false -> tickSteps t s <> 0 ->
  (let resA := subSteps (tickSteps t s) (activeConfig hA s) (tickDeltaTH t s) (rt_of hA s) in
   resA.2 = RestedNear \/ resA.2 = RestedExact true) ->
  (forall k h, (k, h) ∈ rest -> running (rt_of h s) = false) ->
  let at_pass i := Nat.iter i (integrate (activeConfig hB s) (tickDeltaTH t s)) (rt_of hB s) in
  (forall i, i < tickSteps t s ->
     exactRest (at_pass i) = false /\ nearRest (activeConfig hB s) (at_pass i) = false) ->
  let s' := frame t s in
  raf s' = None /\ pending s' = [] /\
  rt_of hB s' = at_pass (tickSteps t s) /\
  running (rt_of hB s') = true /\
  (forall ts, frames ts s' = s').
Proof.
  intros W Hr Hsp HinB Hlag Hsteps HrestA Hothers at_pass HmovB s'.
  assert (HinB' : (kB, hB) ∈ springs s) by (rewrite Hsp; now right).
  assert (Hraf : raf s' = None).
  { unfold s', frame. rewrite (wf_pending _ W), Hr, onFrame_unfold.
    set (s0 := set_pending [] s).
    change (frameDelta t s0) with (frameDelta t s). rewrite Hlag.
    change (springs s0) with (springs s). rewrite Hsp. cbn [fold_left].
    apply raf_fold_idle. unfold processSpring. cbn [snd].
    apply forLoop_stops.
    - apply (wf_entries _ W kA hA). rewrite Hsp. left.
    - intros k h' Hin Hne. change (rt_of h' (tickStart t s0)) with (rt_of h' s).
      change (springs (tickStart t s0)) with (springs s) in Hin. rewrite Hsp in Hin.
      apply elem_of_cons in Hin as [[= -> ->]|Hin]; [done | now apply (Hothers k)].
    - exact HrestA. }
  assert (Hp : pending s' = []).
  { pose proof (wf_pending _ (wf_frame t s W)) as Hp. fold s' in Hp. now rewrite Hraf in Hp. }
  destruct (frame_spring t s r kB hB W Hr HinB' Hlag) as [Hrt _].
  apply subSteps_moving in HmovB. rewrite HmovB in Hrt. cbn [fst] in Hrt.
  split; [exact Hraf|]. split; [exact Hp|]. split; [exact Hrt|].
  split; [|intros ts; now apply frames_idle].
  fold s' in Hrt. rewrite Hrt. unfold at_pass.
  destruct (tickSteps t s) as [|n]; [done|]. reflexivity.
Qed.

Lemma idle_check_strands_later_spring_witness :
  raf (frame 1016%float strandingState) = None /\
  running (rt_of 1 (frame 1016%float strandingState)) = true /\
  goal (rt_of 1 (frame 1016%float strandingState)) = 0%float /\
  current (rt_of 1 (frame 1016%float strandingState)) = 4.9040745854555796%float.
Proof.
  destruct (idle_check_strands_later_spring 1016%float strandingState 2%positive
              "7" 0 [("8"%string, 1)] "8" 1) as (H1 & _ & _ & H4 & _).
  - apply reachable_wf. exists strandingOps. vm_compute. reflexivity.
  - vm_compute. reflexivity.
  - vm_compute. reflexivity.
  - vm_compute. left.
  - vm_compute. reflexivity.
  - vm_compute. lia.
  - right. vm_compute. reflexivity.
  - intros k h Hin. apply list_elem_of_singleton in Hin. injection Hin as -> ->.
    vm_compute. reflexivity.
  - apply subSteps_moving. vm_compute. reflexivity.
  - split; [exact H1 | split; [exact H4 | split; vm_compute; reflexivity]].
Defined.

(** ** The loop while a spring is moving *)

(** While the registered spring [h] is running, the loop of another
    spring leaves the frame loop as it is: its idle checks find [h]. *)
Lemma forLoop_keeps_loop n deltaTH config opt h' s k h :
  h' <> h -> (k, h) ∈ springs s -> running (rt_of h s) = true ->
  raf (forLoop n deltaTH config opt h' s) = raf s /\
  lastT (forLoop n deltaTH config opt h' s) = lastT s.
Proof.
  revert s. induction n as [|n IH]; intros s Hne Hin Hrun; cbn [forLoop].
  - now rewrite raf_fire, lastT_fire.
  - assert (Hidle : forall f s0,
              springs s0 = springs s -> rt_of h s0 = rt_of h s ->
              raf s0 = raf s -> lastT s0 = lastT s ->
              raf (checkIdle (updRuntime h' f s0)) = raf s /\
              lastT (checkIdle (updRuntime h' f s0)) = lastT s).
    { intros f s0 Hsp Hrt Hraf Hl.
      rewrite (checkIdle_running _ k h).
      - split; [exact Hraf | exact Hl].
      - rewrite <- Hsp in Hin. exact Hin.
      - now rewrite rt_of_updRuntime_ne, Hrt by done. }
    destruct (exactRest (rt_of h' s)).
    + destruct (running (rt_of h' s)); [|done].
      apply Hidle; [apply springs_fire | apply rt_of_fire | apply raf_fire | apply lastT_fire].
    + destruct (nearRest config (rt_of h' s)).
      * apply Hidle.
        -- now rewrite !springs_fire.
        -- now rewrite !rt_of_fire, rt_of_updRuntime_ne.
        -- now rewrite !raf_fire.
        -- now rewrite !lastT_fire.
      * destruct (IH (updRuntime h' (integrate config deltaTH) s)) as [-> ->];
          [done | done | now rewrite rt_of_updRuntime_ne | done].
Qed.

Lemma fold_keeps_loop deltaT factor l s k h :
  h ∉ l.*2 -> (k, h) ∈ springs s -> running (rt_of h s) = true ->
  raf (fold_left (processSpring deltaT factor) l s) = raf s /\
  lastT (fold_left (processSpring deltaT factor) l s) = lastT s.
Proof.
  revert s. induction l as [|e l IH]; intros s Hnot Hin Hrun; cbn [fold_left]; [done|].
  rewrite fmap_cons in Hnot. apply not_elem_of_cons in Hnot as [Hne Hnot].
  pose proof (processSpring_sameBut deltaT factor s e) as [Hst Hrt].
  destruct (IH (processSpring deltaT factor s e)) as [-> ->].
  - exact Hnot.
  - now rewrite (ss_springs _ _ Hst).
  - now rewrite Hrt.
  - unfold processSpring. apply (forLoop_keeps_loop _ _ _ _ _ _ k h); [congruence | done..].
Qed.

(** The loop of a spring that meets no rest test makes no idle check. *)
Lemma forLoop_moving_loop n deltaTH config opt h s :
  h < length (instances s) ->
  (subSteps n config deltaTH (rt_of h s)).2 = Moving ->
  raf (forLoop n deltaTH config opt h s) = raf s /\
  lastT (forLoop n deltaTH config opt h s) = lastT s.
Proof.
  revert s. induction n as [|n IH]; intros s Hlt Hout; cbn [forLoop subSteps] in *.
  - now rewrite raf_fire, lastT_fire.
  - destruct (exactRest (rt_of h s)); [discriminate|].
    destruct (nearRest config (rt_of h s)); [discriminate|].
    destruct (IH (updRuntime h (integrate config deltaTH) s)) as [-> ->];
      [now rewrite updRuntime_length | now rewrite rt_of_updRuntime | done].
Qed.

(** A registered spring that is running, and that meets no rest test in
    a frame, keeps the frame loop going through that frame, whatever the
    other springs do: when another spring comes to rest, its idle check
    finds this one.  After the frame a new request is pending, the only
    one, and [lastT] is the time of the frame. *)
Theorem moving_spring_keeps_the_loop t s r k h :
  wf s -> raf s = Some r -> (k, h) ∈ springs s ->
  running (rt_of h s) = true ->
  (100 <? frameDelta t s)%float = false ->
  let cfg := activeConfig h s in
  let at_pass i := Nat.iter i (integrate cfg (tickDeltaTH t s)) (rt_of h s) in
  (forall i, i < tickSteps t s ->
     exactRest (at_pass i) = false /\ nearRest cfg (at_pass i) = false) ->
  raf (frame t s) = Some (nextRequest s) /\
  pending (frame t s) = [nextRequest s] /\
  lastT (frame t s) = t /\
  running (rt_of h (frame t s)) = true.
Proof.
  intros W Hr Hin Hrun Hlag cfg at_pass Hmov.
  apply subSteps_moving in Hmov.
  assert (Hraf : raf (frame t s) = Some (nextRequest s) /\ lastT (frame t s) = t).
  { unfold frame. rewrite (wf_pending _ W), Hr, onFrame_unfold.
    set (s0 := set_pending [] s).
    change (frameDelta t s0) with (frameDelta t s). rewrite Hlag.
    change (springs s0) with (springs s).
    pose proof (wf_handles _ W) as Hnd.
    destruct (wf_entries _ W k h Hin) as [Hlt _].
    apply list_elem_of_split in Hin as (l1 & l2 & Hsplit).
    rewrite Hsplit in Hnd |- *. rewrite fmap_app in Hnd. cbn in Hnd.
    apply NoDup_app in Hnd as (_ & Hl1 & Hl2%NoDup_cons).
    destruct Hl2 as [Hl2 _].
    assert (Hn1 : h ∉ l1.*2) by (intros Hin1; apply (Hl1 _ Hin1); left).
    assert (Hin0 : (k, h) ∈ springs (tickStart t s0)).
    { change (springs (tickStart t s0)) with (springs s). rewrite Hsplit.
      apply elem_of_app. right. left. }
    rewrite fold_left_app. cbn [fold_left].
    set (s1 := fold_left _ l1 (tickStart t s0)).
    destruct (fold_others (frameDelta t s) (tickFactor t s0) l1 (tickStart t s0) h Hn1)
      as [Hrt1 _].
    fold s1 in Hrt1.
    pose proof (fold_sameStatic (frameDelta t s) (tickFactor t s0) l1 (tickStart t s0)) as Hst.
    fold s1 in Hst.
    destruct (fold_keeps_loop (frameDelta t s) (tickFactor t s0) l1 (tickStart t s0) k h
                Hn1 Hin0 Hrun) as [Hraf1 Hl1'].
    fold s1 in Hraf1, Hl1'.
    set (s2 := processSpring (frameDelta t s) (tickFactor t s0) s1 (k, h)).
    assert (Hlt1 : h < length (instances s1)) by now rewrite (ss_length _ _ Hst).
    assert (Hcfg : activeConfig h s1 = cfg)
      by exact (activeConfig_sameStatic h (tickStart t s0) s1 Hst).
    assert (Hmov1 : (subSteps (iterations (tickFactor t s0)) (activeConfig h s1)
                       (frameDelta t s / tickFactor t s0)%float (rt_of h s1)).2 = Moving).
    { rewrite Hcfg, Hrt1. change (rt_of h (tickStart t s0)) with (rt_of h s).
      unfold tickSteps, tickDeltaTH in Hmov.
      change (tickFactor t s0) with (tickFactor t s). now rewrite Hmov. }
    assert (Hloop2 : raf s2 = raf s1 /\ lastT s2 = lastT s1)
      by exact (forLoop_moving_loop _ _ _ (option_ (inst h s1)) h s1 Hlt1 Hmov1).
    destruct Hloop2 as [Hraf2 Hl2'].
    assert (Hrun2 : running (rt_of h s2) = true).
    { unfold s2, processSpring. cbn [snd]. rewrite forLoop_runtime by done.
      revert Hmov1. generalize (activeConfig h s1).
      generalize (frameDelta t s / tickFactor t s0)%float.
      rewrite Hrt1. change (rt_of h (tickStart t s0)) with (rt_of h s).
      destruct (iterations (tickFactor t s0)) as [|n]; intros d c Hm; [exact Hrun|].
      clear -Hm. revert Hm. generalize (rt_of h s). induction n as [|n IH]; intros rt.
      - cbn. destruct (exactRest rt); [discriminate|].
        now destruct (nearRest c rt).
      - cbn [subSteps]. destruct (exactRest rt); [discriminate|].
        destruct (nearRest c rt); [discriminate|]. apply IH. }
    assert (Hin2 : (k, h) ∈ springs s2).
    { unfold s2. rewrite (ss_springs _ _ (proj1 (processSpring_sameBut _ _ s1 (k, h)))).
      now rewrite (ss_springs _ _ Hst). }
    destruct (fold_keeps_loop (frameDelta t s) (tickFactor t s0) l2 s2 k h Hl2 Hin2 Hrun2)
      as [-> ->].
    now rewrite Hraf2, Hl2', Hraf1, Hl1'. }
  destruct Hraf as [Hraf Hl].
  split; [exact Hraf|]. split.
  { pose proof (wf_pending _ (wf_frame t s W)) as Hp. now rewrite Hraf in Hp. }
  split; [exact Hl|].
  destruct (frame_spring t s r k h W Hr Hin Hlag) as [-> _].
  fold cfg. rewrite Hmov. cbn [fst].
  destruct (tickSteps t s) as [|n]; [exact Hrun | reflexivity].
Qed.

Lemma moving_spring_keeps_the_loop_witness :
  raf (frame 1016%float movingState) = Some 3%positive /\
  pending (frame 1016%float movingState) = [3%positive].
Proof.
  destruct (moving_spring_keeps_the_loop 1016%float movingState 2%positive "7" 0)
    as (H1 & H2 & _).
  - apply reachable_wf.
    exists [Controller (allCallbacks (Some 5%float)) [7%N];
            Start 0 100%float None; Frame 1000%float].
    vm_compute. reflexivity.
  - vm_compute. reflexivity.
  - vm_compute. left.
  - vm_compute. reflexivity.
  - vm_compute. reflexivity.
  - apply subSteps_moving. vm_compute. reflexivity.
  - split; [exact H1 | exact H2].
Defined.

(** ** The end of the last animation *)

Lemma fold_resting deltaT factor n l s :
  iterations factor = S n ->
  (forall e, e ∈ l -> exactRest (rt_of e.2 s) = true /\ running (rt_of e.2 s) = false) ->
  fold_left (processSpring deltaT factor) l s = s.
Proof.
  intros Hn. induction l as [|e l IH]; intros Hall; cbn [fold_left]; [done|].
  assert (He : processSpring deltaT factor s e = s).
  { unfold processSpring. rewrite Hn. cbn [forLoop].
    destruct (Hall e) as [-> ->]; [left | done]. }
  rewrite He. apply IH. intros e' Hin. apply Hall. now right.
Qed.

Lemma subSteps_rested n config deltaTH rt :
  (subSteps n config deltaTH rt).2 = RestedNear \/
  (subSteps n config deltaTH rt).2 = RestedExact true ->
  running (subSteps n config deltaTH rt).1 = false.
Proof.
  revert rt. induction n as [|n IH]; intros rt; cbn [subSteps].
  - now intros [H|H].
  - destruct (exactRest rt).
    + destruct (running rt) eqn:Hrun; cbn; [done|]. now intros [H|H].
    + destruct (nearRest config rt); [done | apply IH].
Qed.

(** When a registered spring comes to rest in a frame and every other
    registered spring is at rest and not running, the frame loop stops
    with that frame: no request is pending, [lastT] is back at -1, no
    other spring was touched, and no frame follows until the next
    [start]. *)
Theorem last_rest_stops_the_loop t s r k h :
  wf s -> raf s = Some r -> (k, h) ∈ springs s ->
  (100 <? frameDelta t s)%float = false ->
  (let res := subSteps (tickSteps t s) (activeConfig h s) (tickDeltaTH t s) (rt_of h s) in
   res.2 = RestedNear \/ res.2 = RestedExact true) ->
  (forall k' h', (k', h') ∈ springs s -> h' <> h ->
     exactRest (rt_of h' s) = true /\ running (rt_of h' s) = false) ->
  let s' := frame t s in
  raf s' = None /\ pending s' = [] /\ lastT s' = (-1)%float /\
  running (rt_of h s') = false /\
  (forall h', h' <> h -> rt_of h' s' = rt_of h' s) /\
  (forall ts, frames ts s' = s').
Proof.
  intros W Hr Hin Hlag Hrest Hothers s'. cbn zeta in Hrest.
  assert (Hsteps : exists n, tickSteps t s = S n).
  { destruct (tickSteps t s) as [|n]; [cbn in Hrest; now destruct Hrest | now exists n]. }
  destruct Hsteps as [n Hsteps].
  assert (Hun : s' = fold_left (processSpring (frameDelta t s) (tickFactor t s)) (springs s)
                       (tickStart t (set_pending [] s))).
  { unfold s', frame. rewrite (wf_pending _ W), Hr, onFrame_unfold.
    change (frameDelta t (set_pending [] s)) with (frameDelta t s). now rewrite Hlag. }
  set (s0 := tickStart t (set_pending [] s)) in Hun.
  assert (Hraf : raf s' = None).
  { rewrite Hun.
    pose proof (wf_handles _ W) as Hnd.
    destruct (wf_entries _ W k h Hin) as [Hlt _].
    pose proof Hin as Hin'.
    apply list_elem_of_split in Hin' as (l1 & l2 & Hsplit).
    rewrite Hsplit in Hnd |- *. rewrite fmap_app in Hnd. cbn in Hnd.
    apply NoDup_app in Hnd as (_ & Hl1 & _).
    rewrite fold_left_app. cbn [fold_left].
    rewrite (fold_resting _ _ n l1 s0 Hsteps).
    - apply raf_fold_idle. unfold processSpring. cbn [snd].
      apply forLoop_stops; [exact Hlt | | exact Hrest].
      intros k' h' Hin1 Hne. now apply (Hothers k' h').
    - intros [k' h'] Hin1. cbn [snd].
      apply (Hothers k' h').
      + rewrite Hsplit. apply elem_of_app. now left.
      + intros ->. apply (Hl1 h); [|left].
        apply list_elem_of_fmap. now exists (k', h). }
  assert (Hp : pending s' = []).
  { pose proof (wf_pending _ (wf_frame t s W)) as Hp. fold s' in Hp. now rewrite Hraf in Hp. }
  split; [exact Hraf|]. split; [exact Hp|]. split.
  { assert (Hb : baselineUnset s'); [|exact (Hb Hraf)].
    rewrite Hun. apply baseline_fold. intros Hnone. discriminate Hnone. }
  split.
  { destruct (frame_spring t s r k h W Hr Hin Hlag) as [Hrt _]. fold s' in Hrt.
    rewrite Hrt. now apply subSteps_rested. }
  split; [|intros ts; now apply frames_idle].
  intros h' Hne.
  destruct (decide (h' ∈ (springs s).*2)) as [Hreg|Hnot]; [|now apply frame_unregistered].
  apply list_elem_of_fmap in Hreg as ([k' h0] & -> & Hin1). cbn [snd] in *.
  destruct (frame_spring t s r k' h0 W Hr Hin1 Hlag) as [Hrt _]. fold s' in Hrt.
  rewrite Hrt, Hsteps. cbn [subSteps].
  now destruct (Hothers k' h0 Hin1 Hne) as [-> ->].
Qed.

Lemma last_rest_stops_the_loop_witness :
  raf (frame 1016%float nearRestState) = None /\
  pending (frame 1016%float nearRestState) = [] /\
  lastT (frame 1016%float nearRestState) = (-1)%float.
Proof.
  destruct (last_rest_stops_the_loop 1016%float nearRestState 2%positive "7" 0)
    as (H1 & H2 & H3 & _).
  - apply (wf_updRuntime 0); [done|]. apply reachable_wf.
    exists [Controller (allCallbacks (Some 5%float)) [7%N];
            Start 0 100%float None; Frame 1000%float].
    vm_compute. reflexivity.
  - vm_compute. reflexivity.
  - vm_compute. left.
  - vm_compute. reflexivity.
  - left. vm_compute. reflexivity.
  - intros k' h' Hin Hne. apply list_elem_of_singleton in Hin. injection Hin as -> ->.
    now destruct Hne.
  - split; [exact H1 | split; [exact H2 | exact H3]].
Defined.

(** ** [start] after [remove] *)

Lemma start_runtime h value override s :
  h < length (instances s) ->
  goal (rt_of h (start h value override s)) = value /\
  current (rt_of h (start h value override s)) = current (rt_of h s) /\
  running (rt_of h (start h value override s)) = true.
Proof.
  intros Hlt. rewrite start_unfold.
  set (f1 := fun rt => mkRuntime value (current rt) (v rt) (running rt) (startConfig rt)).
  set (s1 := updRuntime h (setRunning true) (updRuntime h f1 s)).
  set (s2 := (get_config h s1).2).
  set (active := spread _ (default emptyConfig override)).
  set (s3 := set_configs (configs s2 ++ [active]) s2).
  set (s4 := updRuntime h _ s3).
  set (s5 := updRuntime h _ s4).
  assert (Hrt1 : rt_of h s1 = setRunning true (f1 (rt_of h s))).
  { unfold s1. rewrite rt_of_updRuntime by now rewrite updRuntime_length.
    now rewrite rt_of_updRuntime. }
  assert (Hlt3 : h < length (instances s3))
    by (change (instances s3) with (instances s1); unfold s1; now rewrite !updRuntime_length).
  rewrite rt_of_startAnimationFrame, rt_of_fire.
  unfold s5. rewrite rt_of_updRuntime by (unfold s4; now rewrite updRuntime_length).
  unfold s4. rewrite rt_of_updRuntime by done.
  change (rt_of h s3) with (rt_of h s1). now rewrite Hrt1.
Qed.

Lemma frames_unregistered ts s h :
  h ∉ (springs s).*2 -> rt_of h (frames ts s) = rt_of h s.
Proof.
  revert s. induction ts as [|t ts IH]; intros s Hnot; [done|].
  cbn [frames fold_left]. fold (frames ts (frame t s)).
  rewrite IH by now rewrite (ss_springs _ _ (frame_sameStatic t s)).
  now apply frame_unregistered.
Qed.

(** [remove()] is final for the animation of a spring.  A later
    [start(value)] on its controller takes the new goal, marks the
    spring as running and makes the frame loop active, but no frame ever
    moves the spring: its [current] stays what it was. *)
Theorem start_after_remove_moves_nothing h value override ts s :
  wf s -> h < length (instances s) ->
  let s1 := start h value override (remove h s) in
  (exists r, raf s1 = Some r) /\
  get_goal h (frames ts s1) = value /\
  get_current h (frames ts s1) = get_current h s /\
  running (rt_of h (frames ts s1)) = true.
Proof.
  intros W Hlt s1.
  destruct (remove_detaches h s W Hlt) as [Hlt' Hnot].
  destruct (start_runtime h value override (remove h s) Hlt') as (Hg & Hc & Hrun).
  assert (Hnot1 : h ∉ (springs s1).*2)
    by (unfold s1; now rewrite (proj1 (start_frame h value override (remove h s)))).
  split; [apply start_active|].
  unfold get_goal, get_current. rewrite (frames_unregistered ts s1 h Hnot1).
  fold s1 in Hg, Hc, Hrun. now rewrite Hg, Hc, Hrun.
Qed.

Lemma start_after_remove_moves_nothing_witness :
  get_current 0 (frames [1064%float; 1080%float]
                   (start 0 7%float None (remove 0 movingState))) =
  get_current 0 movingState.
Proof.
  destruct (start_after_remove_moves_nothing 0 7%float None [1064%float; 1080%float]
              movingState) as (_ & _ & H & _).
  - apply reachable_wf.
    exists [Controller (allCallbacks (Some 5%float)) [7%N];
            Start 0 100%float None; Frame 1000%float].
    vm_compute. reflexivity.
  - vm_compute. lia.
  - exact H.
Defined.

(** ** The loop of the older copy ([src/unnamed/part_000]) *)

Section OlderLoop.

Implicit Types (s : State) (h : nat).

Lemma p000_subStep_sameBut deltaTH s e : sameBut e.2 s (Part000.subStep deltaTH s e).
Proof.
  unfold Part000.subStep. cbn zeta.
  destruct (exactRest (rt_of e.2 s)).
  - destruct (running (rt_of e.2 s)); [|apply sameBut_refl].
    eapply sameBut_trans; [|apply sameBut_checkIdle].
    eapply sameBut_trans; [apply sameBut_fire | now apply sameBut_updRuntime].
  - destruct (nearRest _ (rt_of e.2 s)).
    + eapply sameBut_trans; [|apply sameBut_checkIdle].
      eapply sameBut_trans; [|now apply sameBut_updRuntime].
      eapply sameBut_trans; [|apply sameBut_fire].
      eapply sameBut_trans; [|apply sameBut_fire].
      now apply sameBut_updRuntime.
    + eapply sameBut_trans; [|apply sameBut_fire]. now apply sameBut_updRuntime.
Qed.

Lemma p000_subStep_events_ne deltaTH s e h :
  h <> e.2 ->
  eventsOf h (trace (Part000.subStep deltaTH s e)) = eventsOf h (trace s).
Proof.
  intros Hne. unfold Part000.subStep. cbn zeta.
  destruct (exactRest (rt_of e.2 s)).
  - destruct (running (rt_of e.2 s)); [|done].
    now rewrite trace_checkIdle, trace_updRuntime, eventsOf_fire_ne.
  - destruct (nearRest _ (rt_of e.2 s)).
    + now rewrite trace_checkIdle, trace_updRuntime, !eventsOf_fire_ne, trace_updRuntime.
    + now rewrite eventsOf_fire_ne, trace_updRuntime.
Qed.

Lemma p000_fold_sameStatic deltaTH l s :
  sameStatic s (fold_left (Part000.subStep deltaTH) l s).
Proof.
  revert s. induction l as [|e l IH]; intros s; cbn [fold_left]; [apply sameStatic_refl|].
  eapply sameStatic_trans; [|apply IH]. apply p000_subStep_sameBut.
Qed.

Lemma p000_fold_others deltaTH l s h :
  h ∉ l.*2 ->
  rt_of h (fold_left (Part000.subStep deltaTH) l s) = rt_of h s /\
  eventsOf h (trace (fold_left (Part000.subStep deltaTH) l s)) = eventsOf h (trace s).
Proof.
  revert s. induction l as [|e l IH]; intros s Hnot; cbn [fold_left]; [done|].
  rewrite fmap_cons in Hnot. apply not_elem_of_cons in Hnot as [Hne Hnot].
  destruct (IH (Part000.subStep deltaTH s e) Hnot) as [-> ->].
  split.
  - now apply (p000_subStep_sameBut deltaTH s e).
  - now apply p000_subStep_events_ne.
Qed.

(** One sub-step of a spring that is not at rest. *)
Lemma p000_subStep_moving deltaTH s k h :
  h < length (instances s) ->
  let cfg := cfgAt (config (info (inst h s))) s in
  exactRest (rt_of h s) = false -> nearRest cfg (rt_of h s) = false ->
  rt_of h (Part000.subStep deltaTH s (k, h)) = integrate cfg deltaTH (rt_of h s) /\
  eventsOf h (trace (Part000.subStep deltaTH s (k, h))) =
    eventsOf h (trace s) ++
    (if onChange (option_ (inst h s))
     then [mkEvent h OnChange (current (integrate cfg deltaTH (rt_of h s)))] else []).
Proof.
  intros Hlt cfg He Hn. unfold Part000.subStep. cbn [snd]. cbn zeta. fold cfg.
  rewrite He, Hn, rt_of_fire, rt_of_updRuntime by done.
  split; [done|].
  rewrite trace_fire, trace_updRuntime, rt_of_updRuntime, eventsOf_app by done.
  f_equal. destruct (onChange _); [|done].
  unfold eventsOf. now rewrite filter_cons_True.
Qed.

(** One pass of the outer loop, at a registered spring that is not at
    rest. *)
Lemma p000_pass_moving deltaTH s k h :
  NoDup (springs s).*2 -> (k, h) ∈ springs s -> h < length (instances s) ->
  let cfg := cfgAt (config (info (inst h s))) s in
  exactRest (rt_of h s) = false -> nearRest cfg (rt_of h s) = false ->
  let s' := fold_left (Part000.subStep deltaTH) (springs s) s in
  rt_of h s' = integrate cfg deltaTH (rt_of h s) /\
  eventsOf h (trace s') =
    eventsOf h (trace s) ++
    (if onChange (option_ (inst h s))
     then [mkEvent h OnChange (current (integrate cfg deltaTH (rt_of h s)))] else []).
Proof.
  intros Hnd Hin Hlt cfg He Hn s'. unfold s'.
  apply list_elem_of_split in Hin as (l1 & l2 & Hsplit).
  rewrite Hsplit in Hnd |- *. rewrite fmap_app in Hnd. cbn in Hnd.
  apply NoDup_app in Hnd as (_ & Hl1 & Hl2%NoDup_cons).
  destruct Hl2 as [Hl2 _].
  assert (Hn1 : h ∉ l1.*2) by (intros Hin1; apply (Hl1 _ Hin1); left).
  rewrite fold_left_app. cbn [fold_left].
  set (s1 := fold_left _ l1 s).
  destruct (p000_fold_others deltaTH l1 s h Hn1) as [Hrt1 Hev1]. fold s1 in Hrt1, Hev1.
  pose proof (p000_fold_sameStatic deltaTH l1 s) as Hst. fold s1 in Hst.
  destruct (p000_fold_others deltaTH l2 (Part000.subStep deltaTH s1 (k, h)) h Hl2) as [-> ->].
  assert (Hlt1 : h < length (instances s1)) by now rewrite (ss_length _ _ Hst).
  assert (Hcfg : cfgAt (config (info (inst h s1))) s1 = cfg).
  { unfold cfg, cfgAt. now rewrite (ss_config _ _ Hst), (ss_configs _ _ Hst). }
  destruct (p000_subStep_moving deltaTH s1 k h Hlt1) as [-> ->];
    rewrite ?Hcfg, ?Hrt1; try done.
  now rewrite (ss_option _ _ Hst), Hev1.
Qed.

Lemma p000_forLoop_moving n deltaTH s k h :
  NoDup (springs s).*2 -> (k, h) ∈ springs s -> h < length (instances s) ->
  let cfg := cfgAt (config (info (inst h s))) s in
  let at_pass i := Nat.iter i (integrate cfg deltaTH) (rt_of h s) in
  (forall i, i < n -> exactRest (at_pass i) = false /\ nearRest cfg (at_pass i) = false) ->
  rt_of h (Part000.forLoop n deltaTH s) = at_pass n /\
  eventsOf h (trace (Part000.forLoop n deltaTH s)) =
    eventsOf h (trace s) ++
    (if onChange (option_ (inst h s))
     then (fun i => mkEvent h OnChange (current (at_pass i))) <$> seq 1 n else []).
Proof.
  revert s. induction n as [|n IH]; intros s Hnd Hin Hlt cfg at_pass Hmov.
  - cbn. split; [done|]. destruct (onChange _); now rewrite app_nil_r.
  - cbn [Part000.forLoop].
    destruct (Hmov 0) as [He Hn]; [lia|]. cbn in He, Hn.
    destruct (p000_pass_moving deltaTH s k h Hnd Hin Hlt He Hn) as [Hrt Hev].
    pose proof (p000_fold_sameStatic deltaTH (springs s) s) as Hst.
    set (s1 := fold_left _ (springs s) s) in *.
    assert (Hcfg : cfgAt (config (info (inst h s1))) s1 = cfg).
    { unfold cfg, cfgAt. now rewrite (ss_config _ _ Hst), (ss_configs _ _ Hst). }
    destruct (IH s1) as [Hrt' Hev'].
    + now rewrite (ss_springs _ _ Hst).
    + now rewrite (ss_springs _ _ Hst).
    + now rewrite (ss_length _ _ Hst).
    + intros i Hi. rewrite Hcfg, Hrt. fold cfg.
      rewrite <- Nat.iter_succ_r. apply Hmov. lia.
    + rewrite Hcfg, Hrt in Hrt', Hev'. fold cfg in Hrt', Hev'.
      rewrite <- Nat.iter_succ_r in Hrt'. split; [exact Hrt'|].
      rewrite Hev', Hev, (ss_option _ _ Hst), <- app_assoc. f_equal.
      destruct (onChange _); [|done].
      cbn [seq fmap list_fmap app]. f_equal.
      rewrite <- (fmap_S_seq 1 n), <- list_fmap_compose.
      apply list_fmap_ext. intros j i _. cbn. unfold at_pass.
      now rewrite <- Nat.iter_succ_r.
Qed.

End OlderLoop.

(** In the older copy, a frame that passes the lag guard calls the
    [onChange] of a registered spring that meets no rest test once in
    every sub-step, with the position after that sub-step: as many calls
    as the frame has sub-steps, where [EasySpring.ts] makes one call.
    The sub-steps use the base configuration, and there are
    [Math.round(deltaT / (1000 / 60 / 30))] of them. *)
Theorem part000_onChange_every_substep t s k h :
  NoDup (springs s).*2 -> (k, h) ∈ springs s -> h < length (instances s) ->
  (100 <? frameDelta t s)%float = false ->
  let factor := Math.round (frameDelta t s / Part000.frameResolution)%float in
  let cfg := cfgAt (config (info (inst h s))) s in
  let at_pass i :=
    Nat.iter i (integrate cfg (frameDelta t s / factor)%float) (rt_of h s) in
  (forall i, i < iterations factor ->
     exactRest (at_pass i) = false /\ nearRest cfg (at_pass i) = false) ->
  rt_of h (Part000.onFrame t s) = at_pass (iterations factor) /\
  eventsOf h (trace (Part000.onFrame t s)) =
    eventsOf h (trace s) ++
    (if onChange (option_ (inst h s))
     then (fun i => mkEvent h OnChange (current (at_pass i))) <$> seq 1 (iterations factor)
     else []).
Proof.
  intros Hnd Hin Hlt Hlag factor cfg at_pass Hmov.
  assert (Hun : Part000.onFrame t s =
                Part000.forLoop (iterations factor) (frameDelta t s / factor)%float
                  (tickStart t s)).
  { unfold Part000.onFrame, requestAnimationFrame. cbn zeta.
    change (frameDelta t (set_raf _ _)) with (frameDelta t s). now rewrite Hlag. }
  rewrite Hun.
  exact (p000_forLoop_moving (iterations factor) (frameDelta t s / factor)%float
           (tickStart t s) k h Hnd Hin Hlt Hmov).
Qed.

Lemma part000_onChange_every_substep_witness :
  length (eventsOf 0 (trace (Part000.onFrame 1016%float (set_lastT 1000%float twoSprings)))) =
  29.
Proof.
  destruct (part000_onChange_every_substep 1016%float (set_lastT 1000%float twoSprings) "7" 0)
    as [_ Hev].
  - apply (bool_decide_unpack _). vm_compute. exact I.
  - vm_compute. left.
  - vm_compute. lia.
  - vm_compute. reflexivity.
  - apply subSteps_moving. vm_compute. reflexivity.
  - rewrite Hev. vm_compute. reflexivity.
Defined.
